(** * angular-simple-user-idle: the idle-detection service

    A shallow embedding of [UserIdleService] (user-idle.service.ts) and of
    [UserIdleConfig] (user-idle.config.ts).

    The service is written as a composition of RxJS operators.  The embedding
    makes the objects those operators allocate explicit:

    - every [subscribe()] in [startWatching] allocates a subscription object
      in a heap; the fields [idleSubscription] and [activitySubscription] of
      the service are handles (indices) into that heap, so that overwriting a
      field does not make the old object disappear;
    - [bufferTime] is a buffer plus a periodic flush timer;
    - [switchMap] holds at most one inner subscription, here the countdown
      returned by [runTimer]: [interval(1000)] cut by [takeUntil] and closed
      by [finalize];
    - the subjects [idleDetected$] and [timeout$] are hot: what they emit is
      the list of outputs of a step.

    The host event loop is the environment: it delivers raw activity events,
    timer firings and API calls one at a time, each with the value of
    [Date.now()] in milliseconds.  Numbers are integers ([Z]). *)

From Stdlib Require Import ZArith Lia.
From stdpp Require Import base option list strings.

Open Scope Z_scope.

(** ** user-idle.config.ts *)

(** An optional property of a JavaScript object ([timeout?: number]): the
    object has no such property ([None]), or it has one, whose value is a
    number or [undefined] ([Some (Some n)], [Some None]). *)
Definition Property := option (option Z).

(** Reading a property: [undefined] when the object has none. *)
Definition read (p : Property) : option Z :=
  match p with
  | Some v => v
  | None => None
  end.

Record UserIdleConfig := {
  timeout_property : Property;                  (* timeout?: number *)
  sensitivityMilliseconds_property : Property;  (* sensitivityMilliseconds?: number *)
}.

(** [c.timeout], in seconds, and [c.sensitivityMilliseconds]. *)
Definition timeout (c : UserIdleConfig) : option Z :=
  read (timeout_property c).

Definition sensitivityMilliseconds (c : UserIdleConfig) : option Z :=
  read (sensitivityMilliseconds_property c).

Definition DEFAULT_CONFIG : UserIdleConfig :=
  {| timeout_property := Some (Some 300);
     sensitivityMilliseconds_property := Some (Some 1500) |}.

(** Object spread [{...base, ...over}]: every own property of [over] is
    copied over the one of [base], also when its value is [undefined]. *)
Definition spread_property (base over : Property) : Property :=
  match over with
  | Some v => Some v
  | None => base
  end.

Definition spread (base over : UserIdleConfig) : UserIdleConfig :=
  {| timeout_property :=
       spread_property (timeout_property base) (timeout_property over);
     sensitivityMilliseconds_property :=
       spread_property (sensitivityMilliseconds_property base)
         (sensitivityMilliseconds_property over) |}.

(** ** Activity feeds and subscription objects *)

(** An activity feed ([Observable<any>]) is known by its identity only. *)
Definition Source := nat.
Definition Payload := nat.

(** [merge(fromEvent(window,'mousemove'), fromEvent(window,'resize'),
    fromEvent(document,'keydown'))] *)
Definition DEFAULT_ACTIVITY_EVENTS : Source := 0%nat.

Inductive Pipeline := ActivityPipe | IdlePipe.

(** The observable built by [runTimer], once subscribed by [switchMap]. *)
Record Countdown := {
  notifier : option Source;   (* takeUntil(this.activityEvents$) *)
  tickAt : Z;                 (* next firing of interval(1000) *)
}.

Record Subscription := {
  pipeline : Pipeline;
  closed : bool;
  feed : Source;              (* the feed the pipeline was built on *)
  buffer : list Payload;      (* bufferTime: events of the current window *)
  flushAt : Z;                (* bufferTime: end of the current window *)
  period : Z;                 (* bufferTime: window length *)
  inner : option Countdown;   (* switchMap: the live inner subscription *)
}.

(** A handle is an index into the heap of subscription objects. *)
Abbreviation Handle := nat (only parsing).

(** ** The service *)

Record UserIdleService := {
  config : UserIdleConfig;
  activityEvents : option Source;        (* activityEvents$, undefined at first *)
  lastActivity : Z;
  isIdleDetected : option bool;          (* undefined at first *)
  idleSubscription : option Handle;
  activitySubscription : option Handle;
  timeoutObservers : list nat;           (* subscribers of onTimeout() pipelines *)
  nextObserver : nat;
  heap : list Subscription;              (* every subscription ever created *)
}.

Inductive Out :=
| IdleStatusChanged (b : bool)   (* idleDetected$.next(b) *)
| TimeoutSignal                  (* timeout$.next(true) *)
| OnTimeoutNext (id : nat)       (* a subscriber of onTimeout() receives true *)
| ConsoleError (msg : string).

#[global] Instance Out_eq_dec : EqDecision Out.
Proof. solve_decision. Defined.

#[global] Instance Pipeline_eq_dec : EqDecision Pipeline.
Proof. solve_decision. Defined.

(** Field updates. *)
Definition set_activityEvents (a : option Source) (w : UserIdleService) :=
  {| config := config w; activityEvents := a; lastActivity := lastActivity w;
     isIdleDetected := isIdleDetected w; idleSubscription := idleSubscription w;
     activitySubscription := activitySubscription w;
     timeoutObservers := timeoutObservers w; nextObserver := nextObserver w;
     heap := heap w |}.

Definition set_lastActivity (t : Z) (w : UserIdleService) :=
  {| config := config w; activityEvents := activityEvents w; lastActivity := t;
     isIdleDetected := isIdleDetected w; idleSubscription := idleSubscription w;
     activitySubscription := activitySubscription w;
     timeoutObservers := timeoutObservers w; nextObserver := nextObserver w;
     heap := heap w |}.

Definition set_isIdleDetected (b : option bool) (w : UserIdleService) :=
  {| config := config w; activityEvents := activityEvents w;
     lastActivity := lastActivity w;
     isIdleDetected := b; idleSubscription := idleSubscription w;
     activitySubscription := activitySubscription w;
     timeoutObservers := timeoutObservers w; nextObserver := nextObserver w;
     heap := heap w |}.

Definition set_idleSubscription (h : option Handle) (w : UserIdleService) :=
  {| config := config w; activityEvents := activityEvents w;
     lastActivity := lastActivity w;
     isIdleDetected := isIdleDetected w; idleSubscription := h;
     activitySubscription := activitySubscription w;
     timeoutObservers := timeoutObservers w; nextObserver := nextObserver w;
     heap := heap w |}.

Definition set_activitySubscription (h : option Handle) (w : UserIdleService) :=
  {| config := config w; activityEvents := activityEvents w;
     lastActivity := lastActivity w;
     isIdleDetected := isIdleDetected w; idleSubscription := idleSubscription w;
     activitySubscription := h;
     timeoutObservers := timeoutObservers w; nextObserver := nextObserver w;
     heap := heap w |}.

Definition set_observers (l : list nat) (n : nat) (w : UserIdleService) :=
  {| config := config w; activityEvents := activityEvents w;
     lastActivity := lastActivity w;
     isIdleDetected := isIdleDetected w; idleSubscription := idleSubscription w;
     activitySubscription := activitySubscription w;
     timeoutObservers := l; nextObserver := n;
     heap := heap w |}.

Definition set_heap (hp : list Subscription) (w : UserIdleService) :=
  {| config := config w; activityEvents := activityEvents w;
     lastActivity := lastActivity w;
     isIdleDetected := isIdleDetected w; idleSubscription := idleSubscription w;
     activitySubscription := activitySubscription w;
     timeoutObservers := timeoutObservers w; nextObserver := nextObserver w;
     heap := hp |}.

Definition set_closed (s : Subscription) : Subscription :=
  {| pipeline := pipeline s; closed := true; feed := feed s;
     buffer := buffer s; flushAt := flushAt s; period := period s;
     inner := None |}.

Definition set_inner (c : option Countdown) (s : Subscription) : Subscription :=
  {| pipeline := pipeline s; closed := closed s; feed := feed s;
     buffer := buffer s; flushAt := flushAt s; period := period s;
     inner := c |}.

Definition next_window (s : Subscription) : Subscription :=
  {| pipeline := pipeline s; closed := closed s; feed := feed s;
     buffer := []; flushAt := flushAt s + period s; period := period s;
     inner := inner s |}.

(** ** Effects: state passing with a log of emissions *)

Definition Eff := UserIdleService -> UserIdleService * list Out.

Definition skip : Eff := fun w => (w, []).

Definition andThen (a b : Eff) : Eff := fun w =>
  let '(w1, o1) := a w in
  let '(w2, o2) := b w1 in
  (w2, o1 ++ o2).

Notation "a ;> b" := (andThen a b) (at level 62, right associativity).

Definition emit (o : Out) : Eff := fun w => (w, [o]).

Definition modify (f : UserIdleService -> UserIdleService) : Eff :=
  fun w => (f w, []).

(** ** user-idle.service.ts *)

Definition nowInSeconds (now : Z) : Z := now / 1000.

(** JavaScript truthiness of [this.isIdleDetected]. *)
Definition truthy (b : option bool) : bool :=
  match b with Some true => true | _ => false end.

Definition constructor (cfg : option UserIdleConfig) (now : Z)
  : UserIdleService :=
  {| config :=
       match cfg with
       | Some c => spread DEFAULT_CONFIG c
       | None => DEFAULT_CONFIG
       end;
     activityEvents := None;
     lastActivity := nowInSeconds now;
     isIdleDetected := None;
     idleSubscription := None;
     activitySubscription := None;
     timeoutObservers := [];
     nextObserver := 0%nat;
     heap := [] |}.

Definition getConfig (w : UserIdleService) : UserIdleConfig := config w.

Definition setIdleness (idleness : bool) : Eff :=
  modify (set_isIdleDetected (Some idleness)) ;>
  emit (IdleStatusChanged idleness).

(** [Subscription.unsubscribe()]: nothing on a closed subscription; otherwise
    the subscription is closed and its teardowns run, among them the
    [finalize] of a live countdown. *)
Definition unsubscribe (h : Handle) : Eff := fun w =>
  match heap w !! h with
  | Some s =>
      if closed s then (w, [])
      else
        let w1 := set_heap (<[h := set_closed s]> (heap w)) w in
        match inner s with
        | Some _ => setIdleness false w1
        | None => (w1, [])
        end
  | None => (w, [])
  end.

(** [if (sub) { sub.unsubscribe() }] *)
Definition unsubscribe_opt (o : option Handle) : Eff := fun w =>
  match o with
  | Some h => unsubscribe h w
  | None => (w, [])
  end.

Definition stopWatching : Eff :=
  (fun w => unsubscribe_opt (idleSubscription w) w) ;>
  (fun w => unsubscribe_opt (activitySubscription w) w).

(** [this.activityEvents$.pipe(bufferTime(...), ...).subscribe()] *)
Definition new_subscription (p : Pipeline) (now : Z) (w : UserIdleService)
  : Subscription :=
  let ms := default 0 (sensitivityMilliseconds (config w)) in
  {| pipeline := p; closed := false;
     feed := default DEFAULT_ACTIVITY_EVENTS (activityEvents w);
     buffer := []; flushAt := now + ms; period := ms; inner := None |}.

Definition subscribeActivity (now : Z) : Eff := fun w =>
  (set_activitySubscription (Some (length (heap w)))
     (set_heap (heap w ++ [new_subscription ActivityPipe now w]) w), []).

Definition subscribeIdle (now : Z) : Eff := fun w =>
  (set_idleSubscription (Some (length (heap w)))
     (set_heap (heap w ++ [new_subscription IdlePipe now w]) w), []).

(** [if (!this.activityEvents$) { this.activityEvents$ = DEFAULT }] *)
Definition install_default : Eff := fun w =>
  match activityEvents w with
  | Some _ => (w, [])
  | None => (set_activityEvents (Some DEFAULT_ACTIVITY_EVENTS) w, [])
  end.

Definition startWatching (now : Z) : Eff :=
  stopWatching ;>
  install_default ;>
  subscribeActivity now ;>
  subscribeIdle now.

Definition console_message : string :=
  "Call stopWatching() before set custom activity events".

Definition idle_live (w : UserIdleService) : bool :=
  match idleSubscription w with
  | Some h =>
      match heap w !! h with
      | Some s => negb (closed s)
      | None => false
      end
  | None => false
  end.

Definition setCustomActivityEvents (customEvents : Source) : Eff := fun w =>
  if idle_live w then emit (ConsoleError console_message) w
  else (set_activityEvents (Some customEvents) w, []).

Definition runTimer (now : Z) (w : UserIdleService) : Countdown :=
  {| notifier := activityEvents w; tickAt := now + 1000 |}.

(** [switchMap(() => runTimer())] on an outer value: the projection is
    called, the previous inner subscription (if any) is unsubscribed, the new
    one is subscribed. *)
Definition switchMap (now : Z) (h : Handle) : Eff := fun w =>
  match heap w !! h with
  | Some s =>
      let cd := runTimer now w in
      let '(w1, o1) :=
        match inner s with
        | Some _ => setIdleness false w
        | None => (w, [])
        end in
      (set_heap (<[h := set_inner (Some cd) s]> (heap w1)) w1, o1)
  | None => (w, [])
  end.

Definition is_empty (arr : list Payload) : bool :=
  match arr with [] => true | _ => false end.

(** [filter(arr => !arr.length && !this.isIdleDetected)] *)
Definition passes (w : UserIdleService) (arr : list Payload) : bool :=
  is_empty arr && negb (truthy (isIdleDetected w)).

(** The [bufferTime] timer of subscription [h] fires: the window is emitted
    to the rest of the pipeline. *)
Definition flush (now : Z) (h : Handle) : Eff := fun w =>
  match heap w !! h with
  | Some s =>
      if closed s then (w, [])
      else
        let arr := buffer s in
        let w1 := set_heap (<[h := next_window s]> (heap w)) w in
        match pipeline s with
        | ActivityPipe =>
            (* filter(arr => !!arr.length), tap(lastActivity = now) *)
            if negb (is_empty arr)
            then (set_lastActivity (nowInSeconds now) w1, [])
            else (w1, [])
        | IdlePipe =>
            if passes w1 arr
            then (setIdleness true ;> switchMap now h) w1
            else (w1, [])
        end
  | None => (w, [])
  end.

(** [onTimeout()]: one pipeline [filter, tap(stopWatching), map] per
    subscriber; [timeout$.next(true)] runs them in subscription order. *)
Definition onTimeout (id : nat) : Eff :=
  stopWatching ;> emit (OnTimeoutNext id).

Fixpoint forEach (ids : list nat) (f : nat -> Eff) : Eff :=
  match ids with
  | [] => skip
  | id :: rest => f id ;> forEach rest f
  end.

Definition timeout_next : Eff := fun w =>
  (emit TimeoutSignal ;> forEach (timeoutObservers w) onTimeout) w.

Definition timed_out (now : Z) (w : UserIdleService) : bool :=
  match timeout (config w) with
  | Some t => lastActivity w + t <? nowInSeconds now
  | None => false
  end.

Definition next_tick (c : Countdown) : Countdown :=
  {| notifier := notifier c; tickAt := tickAt c + 1000 |}.

(** The [interval(1000)] timer of the countdown of subscription [h] fires. *)
Definition tick (now : Z) (h : Handle) : Eff := fun w =>
  match heap w !! h with
  | Some s =>
      match closed s, inner s with
      | false, Some cd =>
          let w1 :=
            set_heap (<[h := set_inner (Some (next_tick cd)) s]> (heap w)) w in
          if timed_out now w1 then timeout_next w1 else (w1, [])
      | _, _ => (w, [])
      end
  | None => (w, [])
  end.

(** A raw event of feed [src]: every open pipeline built on [src] buffers
    it, and every live countdown whose [takeUntil] listens to [src]
    completes, which runs its [finalize]. *)
Definition listens (src : Source) (s : Subscription) : bool :=
  negb (closed s) &&
  match inner s with
  | Some cd => bool_decide (notifier cd = Some src)
  | None => false
  end.

Definition deliver (src : Source) (p : Payload) (s : Subscription)
  : Subscription :=
  if closed s then s
  else
    {| pipeline := pipeline s; closed := false; feed := feed s;
       buffer := if bool_decide (feed s = src) then buffer s ++ [p]
                 else buffer s;
       flushAt := flushAt s; period := period s;
       inner := if listens src s then None else inner s |}.

Definition activity (src : Source) (p : Payload) : Eff := fun w =>
  let cancelled := filter (fun s => listens src s = true) (heap w) in
  let w1 := set_heap (deliver src p <$> heap w) w in
  forEach (seq 0 (length cancelled)) (fun _ => setIdleness false) w1.

(** ** The event loop *)

Inductive Event :=
| StartWatching
| StopWatching
| SetCustomActivityEvents (customEvents : Source)
| SubscribeOnTimeout
| UnsubscribeOnTimeout (id : nat)
| Activity (src : Source) (p : Payload)
| Flush (h : Handle)
| Tick (h : Handle).

Definition step (now : Z) (e : Event) : Eff :=
  match e with
  | StartWatching => startWatching now
  | StopWatching => stopWatching
  | SetCustomActivityEvents s => setCustomActivityEvents s
  | SubscribeOnTimeout =>
      modify (fun w => set_observers (timeoutObservers w ++ [nextObserver w])
                         (S (nextObserver w)) w)
  | UnsubscribeOnTimeout id =>
      modify (fun w => set_observers
                         (filter (fun i => i <> id) (timeoutObservers w))
                         (nextObserver w) w)
  | Activity s p => activity s p
  | Flush h => flush now h
  | Tick h => tick now h
  end.

Fixpoint run (evs : list (Z * Event)) : Eff :=
  match evs with
  | [] => skip
  | (now, e) :: rest => step now e ;> run rest
  end.

Definition reachable (w : UserIdleService) : Prop :=
  exists cfg t0 evs, w = (run evs (constructor cfg t0)).1.

(** ** An ideal timer queue

    The timers of the pipelines, fired exactly when they are due, earliest
    first; among timers due at the same time the one created first (lower
    handle, window before countdown) fires first.  [run] above makes no such
    assumption: there the environment chooses times and order freely. *)

Definition timers_of (h : Handle) (s : Subscription) : list (Z * Event) :=
  if closed s then []
  else (flushAt s, Flush h) ::
       match inner s with
       | Some cd => [(tickAt cd, Tick h)]
       | None => []
       end.

Definition timers (w : UserIdleService) : list (Z * Event) :=
  concat (imap timers_of (heap w)).

Fixpoint earliest (l : list (Z * Event)) : option (Z * Event) :=
  match l with
  | [] => None
  | x :: rest =>
      match earliest rest with
      | Some y => if y.1 <? x.1 then Some y else Some x
      | None => Some x
      end
  end.

(** Fire the timers due up to and including [tEnd]. *)
Fixpoint run_timers (fuel : nat) (tEnd : Z) : Eff := fun w =>
  match fuel with
  | O => (w, [])
  | S fuel' =>
      match earliest (timers w) with
      | Some (t, e) =>
          if t <=? tEnd then (step t e ;> run_timers fuel' tEnd) w
          else (w, [])
      | None => (w, [])
      end
  end.

(** ** The states of a watching session *)

Definition counting (s : Subscription) : bool :=
  match inner s with Some _ => true | None => false end.

(** A subscription that was unsubscribed: closed, its countdown torn down. *)
Definition shut (s : Subscription) : Prop :=
  closed s = true /\ inner s = None.

(** No pipeline is subscribed. *)
Definition stopped (w : UserIdleService) : Prop :=
  Forall shut (heap w) /\ truthy (isIdleDetected w) = false.

(** One watching session: the two fields of the service point at the only
    two open subscriptions, both built on the current activity feed. *)
Record watching (w : UserIdleService) (hA hI : Handle)
    (sA sI : Subscription) : Prop := {
  w_activity : activitySubscription w = Some hA;
  w_idle : idleSubscription w = Some hI;
  w_lookA : heap w !! hA = Some sA;
  w_lookI : heap w !! hI = Some sI;
  w_openA : closed sA = false;
  w_openI : closed sI = false;
  w_pipeA : pipeline sA = ActivityPipe;
  w_pipeI : pipeline sI = IdlePipe;
  w_innerA : inner sA = None;
  w_feedA : activityEvents w = Some (feed sA);
  w_feedI : activityEvents w = Some (feed sI);
  w_notifier : forall cd, inner sI = Some cd -> notifier cd = Some (feed sI);
  w_flag : truthy (isIdleDetected w) = counting sI;
  w_rest : forall h s, heap w !! h = Some s -> h <> hA -> h <> hI -> shut s;
}.

Definition fresh_observers (w : UserIdleService) : Prop :=
  NoDup (timeoutObservers w) /\
  forall i, i ∈ timeoutObservers w -> (i < nextObserver w)%nat.

Definition Inv (w : UserIdleService) : Prop :=
  fresh_observers w /\
  (stopped w \/ exists hA hI sA sI, watching w hA hI sA sI).

(** Where countdowns are live. *)
Definition countdown_live (w : UserIdleService) (h : Handle) : Prop :=
  exists s cd, heap w !! h = Some s /\ inner s = Some cd.

Definition subscription_open (w : UserIdleService) (h : Handle) : Prop :=
  exists s, heap w !! h = Some s /\ closed s = false.

(** No activity waits in a buffer. *)
Definition quiet (w : UserIdleService) : Prop :=
  Forall (fun s => closed s = false -> buffer s = []) (heap w).

Definition timer_event (e : Event) : Prop :=
  match e with Flush _ | Tick _ => True | _ => False end.

(** ** The idle state machine on a silent run

    The state machine of the design, restricted to timer events: [ACTIVE]
    waits for an empty window, [IDLE] counts down, [STOPPED] has no
    subscription left.  [hI] is the handle of the idle pipeline, [last] the
    value of [lastActivity], [t] the configured timeout and [obs] the
    subscribers of [onTimeout()]. *)

Inductive Phase := ACTIVE | IDLE | STOPPED.

Definition is_handle (h h' : nat) : bool := bool_decide (h = h').

(** What a firing countdown emits when [onTimeout()] has subscribers. *)
Definition timeout_fired (obs : list nat) : list Out :=
  TimeoutSignal :: IdleStatusChanged false :: (OnTimeoutNext <$> obs).

Definition machine_step (hI : nat) (last t : Z) (obs : list nat)
    (ph : Phase) (now : Z) (e : Event) : Phase * list Out :=
  match ph, e with
  | ACTIVE, Flush h =>
      if is_handle hI h then (IDLE, [IdleStatusChanged true]) else (ACTIVE, [])
  | IDLE, Tick h =>
      if is_handle hI h && (last + t <? nowInSeconds now)
      then match obs with
           | [] => (IDLE, [TimeoutSignal])
           | _ => (STOPPED, timeout_fired obs)
           end
      else (IDLE, [])
  | _, _ => (ph, [])
  end.

Fixpoint machine_run (hI : nat) (last t : Z) (obs : list nat)
    (ph : Phase) (evs : list (Z * Event)) : Phase * list Out :=
  match evs with
  | [] => (ph, [])
  | (now, e) :: rest =>
      let '(ph1, o1) := machine_step hI last t obs ph now e in
      let '(ph2, o2) := machine_run hI last t obs ph1 rest in
      (ph2, o1 ++ o2)
  end.

(** The service is in phase [ph] of a session whose idle pipeline is [hI],
    with no activity waiting in a buffer. *)
Definition in_phase (hI : nat) (w : UserIdleService) (ph : Phase) : Prop :=
  match ph with
  | ACTIVE =>
      quiet w /\
      exists hA sA sI, watching w hA hI sA sI /\ counting sI = false
  | IDLE =>
      quiet w /\
      exists hA sA sI, watching w hA hI sA sI /\ counting sI = true
  | STOPPED => stopped w
  end.

(** The emissions of a live countdown that nobody stops: one internal
    timeout signal per tick of the countdown of [hI]. *)
Definition signal_of_tick (hI : nat) (te : Z * Event) : list Out :=
  match te.2 with
  | Tick h => if is_handle hI h then [TimeoutSignal] else []
  | _ => []
  end.

Definition repeated_signals (hI : nat) (evs : list (Z * Event)) : list Out :=
  flat_map (signal_of_tick hI) evs.

(** The subscription a field of the service points at: is it open, and does
    it hold a live countdown? *)
Definition live_at (w : UserIdleService) (o : option nat) : bool :=
  match o with
  | Some h =>
      match heap w !! h with
      | Some s => negb (closed s)
      | None => false
      end
  | None => false
  end.

Definition counting_at (w : UserIdleService) (o : option nat) : bool :=
  match o with
  | Some h =>
      match heap w !! h with
      | Some s => negb (closed s) && counting s
      | None => false
      end
  | None => false
  end.

(** ** A concrete session

    [timeout] 2 seconds, windows of 100 milliseconds, constructed and started
    at time 0 with one subscriber of [onTimeout()]. *)

Definition scenario_config : UserIdleConfig :=
  {| timeout_property := Some (Some 2);
     sensitivityMilliseconds_property := Some (Some 100) |}.

(** The service with one subscriber of [onTimeout()], not yet watching. *)
Definition subscribed_state : UserIdleService :=
  (run [(0, SubscribeOnTimeout)] (constructor (Some scenario_config) 0)).1.

Definition watching_state : UserIdleService :=
  (run [(0, SubscribeOnTimeout); (0, StartWatching)]
     (constructor (Some scenario_config) 0)).1.

(** After the first, empty, window: the countdown is live. *)
Definition idle_state : UserIdleService :=
  (run [(100, Flush 0%nat); (100, Flush 1%nat)] watching_state).1.

(** The same session without any subscriber of [onTimeout()], its countdown
    live. *)
Definition unobserved_idle_state : UserIdleService :=
  (run [(0, StartWatching); (100, Flush 0%nat); (100, Flush 1%nat)]
     (constructor (Some scenario_config) 0)).1.

(** ** Frames *)

(** The fields no unsubscription ever writes. *)
Definition static (w w' : UserIdleService) : Prop :=
  config w' = config w /\ lastActivity w' = lastActivity w /\
  activityEvents w' = activityEvents w /\
  idleSubscription w' = idleSubscription w /\
  activitySubscription w' = activitySubscription w /\
  timeoutObservers w' = timeoutObservers w /\
  nextObserver w' = nextObserver w.

(** The fields only the constructor and the subscribers of [onTimeout()]
    write. *)
Definition frame (w w' : UserIdleService) : Prop :=
  config w' = config w /\ timeoutObservers w' = timeoutObservers w /\
  nextObserver w' = nextObserver w.

Definition observer_event (e : Event) : Prop :=
  match e with
  | SubscribeOnTimeout | UnsubscribeOnTimeout _ => True
  | _ => False
  end.

#[global] Instance observer_event_dec e : Decision (observer_event e).
Proof. destruct e; simpl; apply _. Defined.

(** ** What the streams and the sampler show

    [samples w e]: the event is a window of an open activity pipeline that
    holds at least one raw event, the only place where [lastActivity] is
    assigned after construction. *)
Definition samples (w : UserIdleService) (e : Event) : bool :=
  match e with
  | Flush h =>
      match heap w !! h with
      | Some s =>
          negb (closed s) && bool_decide (pipeline s = ActivityPipe) &&
          negb (is_empty (buffer s))
      | None => false
      end
  | _ => false
  end.

(** The values [onIdleStatusChanged()] delivers, out of all emissions. *)
Definition status_of (o : Out) : option bool :=
  match o with
  | IdleStatusChanged b => Some b
  | _ => None
  end.

Definition statuses (out : list Out) : list bool := omap status_of out.

(** [alternating b l]: [l] alternates and does not begin with [b]. *)
Fixpoint alternating (last : bool) (l : list bool) : bool :=
  match l with
  | [] => true
  | b :: rest => bool_decide (b = negb last) && alternating b rest
  end.

(** One step emits at most one idle status, the opposite of the flag, and
    the flag follows it. *)
Definition quiet_status (w w' : UserIdleService) (out : list Out) : Prop :=
  statuses out = [] /\
  truthy (isIdleDetected w') = truthy (isIdleDetected w).

Definition flipped_status (w w' : UserIdleService) (out : list Out) : Prop :=
  statuses out = [negb (truthy (isIdleDetected w))] /\
  truthy (isIdleDetected w') = negb (truthy (isIdleDetected w)).

(** A run in which the user stays active: raw events of any feed, windows
    and ticks only, and every window of the idle pipeline [hI] closes after
    at least one raw event of the feed [src] arrived in it.  [pending] tells
    whether the current window already holds one. *)
Fixpoint busy (hI : nat) (src : Source) (pending : bool)
    (evs : list (Z * Event)) : bool :=
  match evs with
  | [] => true
  | (_, e) :: rest =>
      match e with
      | Activity s _ =>
          busy hI src (if bool_decide (s = src) then true else pending) rest
      | Flush h =>
          if bool_decide (h = hI) then pending && busy hI src false rest
          else busy hI src pending rest
      | Tick _ => busy hI src pending rest
      | _ => false
      end
  end.

(** The session of the idle pipeline [hI] on the feed [src] with no
    countdown; when [pending], its current window holds a raw event. *)
Definition staying_active (hI : nat) (src : Source) (pending : bool)
    (w : UserIdleService) : Prop :=
  exists hA sA sI,
    watching w hA hI sA sI /\ inner sI = None /\ feed sI = src /\
    (pending = true -> buffer sI <> []).

(** [keeps_countdown w evs]: through the run [evs] from [w] a countdown is
    live after every step. *)
Fixpoint keeps_countdown (w : UserIdleService) (evs : list (Z * Event))
  : Prop :=
  match evs with
  | [] => True
  | (now, e) :: rest =>
      (exists h, countdown_live (step now e w).1 h) /\
      keeps_countdown (step now e w).1 rest
  end.

(** ** Silence after [startWatching()]

    [overdue_tick hI last t te]: the event is a tick of the countdown of
    [hI] at which the comparison of [runTimer] holds. *)
Definition overdue_tick (hI : nat) (last t : Z) (te : Z * Event) : Prop :=
  te.2 = Tick hI /\ last + t < nowInSeconds te.1.

(** The whole of what a timeout shows: idleness entered, one internal
    signal, idleness left, one [true] for each subscriber of [onTimeout()]
    and no more, nothing left open, and nothing emitted afterwards until
    [startWatching()] is called again. *)
Definition timed_out_once (obs : list nat) (r : UserIdleService * list Out)
  : Prop :=
  r.2 = IdleStatusChanged true :: timeout_fired obs /\
  stopped r.1 /\
  (forall id, In id obs -> count_occ Out_eq_dec r.2 (OnTimeoutNext id) = 1%nat) /\
  forall evs', Forall (fun te : Z * Event => te.2 <> StartWatching) evs' ->
    (run evs' r.1).2 = [].

(** The session of the sampler [hA] and the idle pipeline [S hA] with
    windows of [ms] milliseconds, no activity waiting, the next windows due
    at [A] and [I] and the next tick of the countdown, if one is live, due at
    [K]. *)
Definition ideal (hA : nat) (ms last t : Z) (obs : list nat)
    (w : UserIdleService) (A I : Z) (K : option Z) : Prop :=
  exists sA sI,
    watching w hA (S hA) sA sI /\ quiet w /\
    flushAt sA = A /\ flushAt sI = I /\ period sA = ms /\ period sI = ms /\
    tickAt <$> inner sI = K /\
    lastActivity w = last /\ timeout (config w) = Some t /\
    timeoutObservers w = obs.

(** A bound on the number of timers that fire up to the time [Ks]. *)
Definition timers_left (A I K Ks : Z) : nat :=
  (Z.to_nat (Z.max 0 (Ks - A + 1)) + Z.to_nat (Z.max 0 (Ks - I + 1)) +
   Z.to_nat (Ks - K + 1))%nat.

(** * Properties *)

Arguments andThen : simpl never.
Arguments unsubscribe : simpl never.
Arguments unsubscribe_opt : simpl never.
Arguments stopWatching : simpl never.
Arguments startWatching : simpl never.
Arguments setCustomActivityEvents : simpl never.
Arguments switchMap : simpl never.
Arguments flush : simpl never.
Arguments tick : simpl never.
Arguments activity : simpl never.
Arguments onTimeout : simpl never.
Arguments timeout_next : simpl never.
Arguments forEach : simpl never.
Arguments run : simpl never.
Arguments run_timers : simpl never.

(** ** Sequencing *)

Lemma andThen_eq (a b : Eff) w :
  (a ;> b) w = ((b (a w).1).1, (a w).2 ++ (b (a w).1).2).
Proof. unfold andThen. destruct (a w) as [w1 o1]. simpl. by destruct (b w1). Qed.

Lemma run_cons now e evs w :
  run ((now, e) :: evs) w =
  ((run evs (step now e w).1).1, (step now e w).2 ++ (run evs (step now e w).1).2).
Proof. apply andThen_eq. Qed.

Lemma forEach_cons id ids f w :
  forEach (id :: ids) f w =
  ((forEach ids f (f id w).1).1, (f id w).2 ++ (forEach ids f (f id w).1).2).
Proof. apply andThen_eq. Qed.

Lemma onTimeout_eq id w :
  onTimeout id w = ((stopWatching w).1, (stopWatching w).2 ++ [OnTimeoutNext id]).
Proof. unfold onTimeout. by rewrite andThen_eq. Qed.

Lemma run_app evs1 evs2 w :
  run (evs1 ++ evs2) w =
  ((run evs2 (run evs1 w).1).1, (run evs1 w).2 ++ (run evs2 (run evs1 w).1).2).
Proof.
  revert w. induction evs1 as [|[now e] evs1 IH]; intros w.
  - simpl. by destruct (run evs2 w).
  - rewrite <- app_comm_cons, !run_cons, IH. simpl. by rewrite app_assoc.
Qed.

Lemma reachable_init cfg t0 : reachable (constructor cfg t0).
Proof. by exists cfg, t0, []. Qed.

Lemma reachable_run evs w : reachable w -> reachable (run evs w).1.
Proof.
  intros (cfg & t0 & evs0 & ->). exists cfg, t0, (evs0 ++ evs).
  by rewrite run_app.
Qed.

Lemma reachable_step now e w : reachable w -> reachable (step now e w).1.
Proof.
  intros H. apply (reachable_run [(now, e)]) in H.
  rewrite run_cons in H. exact H.
Qed.

(** ** What an operation leaves alone *)

Ltac crush_eff :=
  repeat (simpl in *; try done;
          match goal with
          | |- context [andThen _ _ _] => rewrite andThen_eq
          | |- context [match ?x with _ => _ end] => destruct x eqn:?
          end).

Lemma static_refl w : static w w.
Proof. by repeat split. Qed.

Lemma static_trans w1 w2 w3 : static w1 w2 -> static w2 w3 -> static w1 w3.
Proof.
  unfold static. intros (?&?&?&?&?&?&?) (?&?&?&?&?&?&?).
  repeat split; congruence.
Qed.

Lemma unsubscribe_static h w : static w (unsubscribe h w).1.
Proof. unfold static, unsubscribe, setIdleness, modify, emit. crush_eff. Qed.

Lemma unsubscribe_opt_static o w : static w (unsubscribe_opt o w).1.
Proof. destruct o; [apply unsubscribe_static|apply static_refl]. Qed.

Lemma stopWatching_eq w :
  stopWatching w =
  (unsubscribe_opt (idleSubscription w) ;>
   unsubscribe_opt (activitySubscription w)) w.
Proof.
  unfold stopWatching. rewrite !andThen_eq.
  by destruct (unsubscribe_opt_static (idleSubscription w) w)
    as (_ & _ & _ & _ & -> & _).
Qed.

Lemma stopWatching_static w : static w (stopWatching w).1.
Proof.
  rewrite stopWatching_eq, andThen_eq. simpl.
  eapply static_trans; apply unsubscribe_opt_static.
Qed.

Lemma forEach_onTimeout_static ids w :
  static w (forEach ids onTimeout w).1.
Proof.
  revert w. induction ids as [|id ids IH]; intros w; [apply static_refl|].
  rewrite forEach_cons, onTimeout_eq. simpl.
  eapply static_trans; [apply stopWatching_static|apply IH].
Qed.

Lemma setIdleness_static b w : static w (setIdleness b w).1.
Proof. by repeat split. Qed.

Lemma forEach_setIdleness_static (l : list nat) w :
  static w (forEach l (fun _ => setIdleness false) w).1 /\
  heap (forEach l (fun _ => setIdleness false) w).1 = heap w.
Proof.
  revert w. induction l as [|x l IH]; intros w; [split; [apply static_refl|done]|].
  rewrite forEach_cons. simpl.
  destruct (IH (setIdleness false w).1) as [F1 F2]. split.
  - eapply static_trans; [apply (setIdleness_static false w)|apply F1].
  - exact F2.
Qed.

Lemma switchMap_static now h w : static w (switchMap now h w).1.
Proof.
  unfold switchMap. destruct (heap w !! h) as [s|]; [|apply static_refl].
  destruct (inner s); by repeat split.
Qed.

Lemma static_frame w w' : static w w' -> frame w w'.
Proof. intros (?&?&?&?&?&?&?). by repeat split. Qed.

Lemma flush_frame now h w : frame w (flush now h w).1.
Proof.
  unfold flush. destruct (heap w !! h) as [s|]; [|done].
  destruct (closed s); [done|]. destruct (pipeline s).
  - by destruct (negb _).
  - destruct (passes _ _); [|done]. rewrite andThen_eq. simpl.
    apply static_frame.
    apply (static_trans _
      (set_isIdleDetected (Some true)
         (set_heap (<[h:=next_window s]> (heap w)) w))); [done|].
    apply switchMap_static.
Qed.

Lemma tick_static now h w : static w (tick now h w).1.
Proof.
  unfold tick. destruct (heap w !! h) as [s|]; [|apply static_refl].
  destruct (closed s); [apply static_refl|].
  destruct (inner s); [|apply static_refl].
  case_match; [|done]. unfold timeout_next. rewrite andThen_eq. simpl.
  eapply static_trans; [|apply forEach_onTimeout_static]. done.
Qed.

Lemma activity_static src p w : static w (activity src p w).1.
Proof.
  unfold activity.
  match goal with |- context [forEach ?l _ ?w1] =>
    destruct (forEach_setIdleness_static l w1) as [E _] end.
  eapply static_trans; [|exact E]. done.
Qed.

Lemma startWatching_frame now w :
  frame w (startWatching now w).1 /\
  lastActivity (startWatching now w).1 = lastActivity w.
Proof.
  unfold startWatching. rewrite !andThen_eq. simpl.
  destruct (stopWatching_static w) as (E1 & E2 & _ & _ & _ & E3 & E4).
  unfold install_default, frame.
  by destruct (activityEvents (stopWatching w).1).
Qed.

Lemma setCustomActivityEvents_frame src w :
  frame w (setCustomActivityEvents src w).1 /\
  lastActivity (setCustomActivityEvents src w).1 = lastActivity w.
Proof. unfold setCustomActivityEvents, emit. by destruct (idle_live w). Qed.

Lemma step_frame now e w : ~ observer_event e -> frame w (step now e w).1.
Proof.
  intros He. destruct e; simpl.
  - apply startWatching_frame.
  - apply static_frame, stopWatching_static.
  - apply setCustomActivityEvents_frame.
  - by destruct He.
  - by destruct He.
  - apply static_frame, activity_static.
  - apply flush_frame.
  - apply static_frame, tick_static.
Qed.

Lemma step_config now e w : config (step now e w).1 = config w.
Proof.
  destruct e; try done; apply step_frame; simpl; tauto.
Qed.

Lemma run_config evs w : config (run evs w).1 = config w.
Proof.
  revert w. induction evs as [|[now e] evs IH]; intros w; [done|].
  rewrite run_cons. simpl. by rewrite IH, step_config.
Qed.

(** ** Configuration *)

(** C8: [getConfig()] returns the defaults ([timeout] 300 seconds,
    [sensitivityMilliseconds] 1500) merged with the object the caller gave
    to the constructor: a field the caller omits keeps its default, a field
    the caller supplies has the caller's value (which JavaScript lets be
    [undefined], and then the field reads [undefined]); a missing
    configuration object gives the defaults, and nothing that happens after
    construction changes the answer. *)
Theorem getConfig_defaults_merged (cfg : UserIdleConfig) (now : Z) :
  getConfig (constructor (Some cfg) now) = spread DEFAULT_CONFIG cfg /\
  timeout (getConfig (constructor (Some cfg) now)) =
    match timeout_property cfg with
    | None => Some 300
    | Some supplied => supplied
    end /\
  sensitivityMilliseconds (getConfig (constructor (Some cfg) now)) =
    match sensitivityMilliseconds_property cfg with
    | None => Some 1500
    | Some supplied => supplied
    end /\
  timeout (getConfig (constructor None now)) = Some 300 /\
  sensitivityMilliseconds (getConfig (constructor None now)) = Some 1500 /\
  forall evs,
    getConfig (run evs (constructor (Some cfg) now)).1 =
    getConfig (constructor (Some cfg) now).
Proof.
  split; [done|]. split; [|split; [|split; [done|split; [done|]]]].
  - unfold getConfig, constructor, spread, timeout. simpl.
    by destruct (timeout_property cfg).
  - unfold getConfig, constructor, spread, sensitivityMilliseconds. simpl.
    by destruct (sensitivityMilliseconds_property cfg).
  - intros evs. unfold getConfig. apply run_config.
Qed.

(** A property supplied with the value [undefined] is copied like any
    other: [{timeout: undefined, sensitivityMilliseconds: 100}] is not a
    configuration that omits [timeout], and [getConfig().timeout] is
    [undefined] for it. *)
Lemma getConfig_undefined_supplied (now : Z) :
  let cfg := {| timeout_property := Some None;
                sensitivityMilliseconds_property := Some (Some 100) |} in
  timeout (getConfig (constructor (Some cfg) now)) = None /\
  sensitivityMilliseconds (getConfig (constructor (Some cfg) now)) = Some 100.
Proof. done. Qed.

(** ** Unsubscribing *)

Lemma unsubscribe_none h w : heap w !! h = None -> unsubscribe h w = (w, []).
Proof. unfold unsubscribe. by intros ->. Qed.

Lemma unsubscribe_closed h w s :
  heap w !! h = Some s -> closed s = true -> unsubscribe h w = (w, []).
Proof. unfold unsubscribe. by intros -> ->. Qed.

Lemma unsubscribe_open h w s :
  heap w !! h = Some s -> closed s = false ->
  unsubscribe h w =
  let w1 := set_heap (<[h := set_closed s]> (heap w)) w in
  if counting s then (set_isIdleDetected (Some false) w1, [IdleStatusChanged false])
  else (w1, []).
Proof.
  unfold unsubscribe, counting. intros -> ->. by destruct (inner s).
Qed.

Lemma set_closed_shut s : shut (set_closed s).
Proof. done. Qed.

Lemma stopped_unsubscribe h w : stopped w -> unsubscribe h w = (w, []).
Proof.
  intros [Hall _]. destruct (heap w !! h) as [s|] eqn:E.
  - eapply unsubscribe_closed; [done|].
    by destruct (proj1 (Forall_lookup _ _) Hall h s E).
  - by apply unsubscribe_none.
Qed.

Lemma stopped_stopWatching w : stopped w -> stopWatching w = (w, []).
Proof.
  intros H. rewrite stopWatching_eq, andThen_eq.
  assert (E : forall o, unsubscribe_opt o w = (w, [])).
  { intros [h|]; [by apply stopped_unsubscribe|done]. }
  by rewrite !E.
Qed.

Lemma watching_ne w hA hI sA sI : watching w hA hI sA sI -> hA <> hI.
Proof.
  intros W E. subst hI. pose proof (w_lookA _ _ _ _ _ W) as E1.
  pose proof (w_lookI _ _ _ _ _ W) as E2. rewrite E1 in E2.
  injection E2 as ->. pose proof (w_pipeA _ _ _ _ _ W) as P1.
  pose proof (w_pipeI _ _ _ _ _ W) as P2. congruence.
Qed.

(** [stopWatching()] during a session. *)
Lemma watching_stopWatching w hA hI sA sI :
  watching w hA hI sA sI ->
  stopWatching w =
  let hp := <[hA := set_closed sA]> (<[hI := set_closed sI]> (heap w)) in
  if counting sI
  then (set_heap hp (set_isIdleDetected (Some false) w), [IdleStatusChanged false])
  else (set_heap hp w, []).
Proof.
  intros W. pose proof (watching_ne _ _ _ _ _ W) as Hne.
  destruct W. rewrite stopWatching_eq, andThen_eq.
  rewrite w_idle0, w_activity0. unfold unsubscribe_opt.
  rewrite (unsubscribe_open hI w sI) by done. simpl.
  destruct (counting sI) eqn:C; simpl.
  - rewrite (unsubscribe_open hA _ sA); simpl; [|by rewrite list_lookup_insert_ne|done].
    unfold counting. by rewrite w_innerA0.
  - rewrite (unsubscribe_open hA _ sA); simpl; [|by rewrite list_lookup_insert_ne|done].
    unfold counting. by rewrite w_innerA0.
Qed.

Lemma watching_stopWatching_stopped w hA hI sA sI :
  watching w hA hI sA sI -> stopped (stopWatching w).1.
Proof.
  intros W. rewrite (watching_stopWatching _ _ _ _ _ W).
  pose proof (watching_ne _ _ _ _ _ W) as Hne. destruct W.
  assert (Hall : Forall shut
            (<[hA := set_closed sA]> (<[hI := set_closed sI]> (heap w)))).
  { apply Forall_lookup. intros i s Hi.
    apply list_lookup_insert_Some in Hi as [(-> & <- & _)|(Hn1 & Hi)]; [done|].
    apply list_lookup_insert_Some in Hi as [(-> & <- & _)|(Hn2 & Hi)]; [done|].
    by eapply w_rest0. }
  simpl. destruct (counting sI) eqn:C; (split; [exact Hall|]); [done|].
  simpl. by rewrite w_flag0.
Qed.

Lemma Inv_stopWatching w : Inv w -> stopped (stopWatching w).1.
Proof.
  intros [_ [S|(hA & hI & sA & sI & W)]].
  - by rewrite stopped_stopWatching.
  - by eapply watching_stopWatching_stopped.
Qed.

(** ** Starting a session *)

Lemma unsubscribe_length h w :
  length (heap (unsubscribe h w).1) = length (heap w).
Proof.
  unfold unsubscribe. destruct (heap w !! h) as [s|]; [|done].
  destruct (closed s); [done|].
  destruct (inner s); simpl; by rewrite length_insert.
Qed.

Lemma stopWatching_length w :
  length (heap (stopWatching w).1) = length (heap w).
Proof.
  rewrite stopWatching_eq, andThen_eq. simpl.
  assert (E : forall o w0, length (heap (unsubscribe_opt o w0).1) = length (heap w0)).
  { intros [h|] w0; [apply unsubscribe_length|done]. }
  by rewrite !E.
Qed.

Lemma startWatching_eq now w :
  startWatching now w =
  ((subscribeIdle now
      (subscribeActivity now (install_default (stopWatching w).1).1).1).1,
   (stopWatching w).2).
Proof.
  unfold startWatching. rewrite !andThen_eq.
  assert (E : (install_default (stopWatching w).1).2 = []).
  { unfold install_default. by destruct (activityEvents _). }
  rewrite E. simpl. by rewrite app_nil_r.
Qed.

Lemma install_default_feed w :
  activityEvents (install_default w).1 =
  Some (default DEFAULT_ACTIVITY_EVENTS (activityEvents w)).
Proof. unfold install_default. by destruct (activityEvents w) eqn:E. Qed.

Lemma install_default_rest w :
  let w' := (install_default w).1 in
  heap w' = heap w /\ isIdleDetected w' = isIdleDetected w /\
  config w' = config w /\ lastActivity w' = lastActivity w /\
  timeoutObservers w' = timeoutObservers w /\
  nextObserver w' = nextObserver w.
Proof. unfold install_default. by destruct (activityEvents w). Qed.

Lemma stopped_fresh_session now w :
  stopped w ->
  let w2 := (install_default w).1 in
  let sA := new_subscription ActivityPipe now w2 in
  let sI := new_subscription IdlePipe now w2 in
  watching (subscribeIdle now (subscribeActivity now w2).1).1
    (length (heap w)) (S (length (heap w))) sA sI.
Proof.
  intros [Hall Hflag] w2 sA sI.
  destruct (install_default_rest w) as (Eh & Ef & _).
  pose proof (install_default_feed w) as Ea. fold w2 in Eh, Ef, Ea.
  unfold subscribeIdle, subscribeActivity. simpl. rewrite Eh.
  split; simpl.
  - done.
  - by rewrite length_app, Nat.add_1_r.
  - rewrite lookup_app_l by (rewrite length_app; simpl; lia).
    by rewrite list_lookup_middle.
  - change (new_subscription IdlePipe now _) with sI.
    apply list_lookup_middle. rewrite length_app. simpl. lia.
  - done.
  - done.
  - done.
  - done.
  - done.
  - by rewrite Ea.
  - by rewrite Ea.
  - done.
  - by rewrite Ef.
  - intros h s Hl HnA HnI.
    assert (Hlt : (h < length (heap w))%nat).
    { apply lookup_lt_Some in Hl. rewrite !length_app in Hl. simpl in Hl. lia. }
    rewrite !lookup_app_l in Hl by (rewrite ?length_app; simpl; lia).
    by apply (proj1 (Forall_lookup _ _) Hall h s).
Qed.

(** ** Rebuilding the session after one of its subscriptions changed *)

Lemma watching_update_idle w w' hA hI sA sI sI' :
  watching w hA hI sA sI ->
  heap w' = <[hI := sI']> (heap w) ->
  activityEvents w' = activityEvents w ->
  idleSubscription w' = idleSubscription w ->
  activitySubscription w' = activitySubscription w ->
  closed sI' = false -> pipeline sI' = IdlePipe -> feed sI' = feed sI ->
  (forall cd, inner sI' = Some cd -> notifier cd = Some (feed sI)) ->
  truthy (isIdleDetected w') = counting sI' ->
  watching w' hA hI sA sI'.
Proof.
  intros W Eh Ea Ei Eact Hc Hp Hf Hn Hfl.
  pose proof (watching_ne _ _ _ _ _ W) as Hne. destruct W.
  assert (Hlt : (hI < length (heap w))%nat) by by eapply lookup_lt_Some.
  split; rewrite ?Eh, ?Ea, ?Ei, ?Eact, ?Hf; try done.
  - by rewrite list_lookup_insert_ne.
  - by rewrite list_lookup_insert_eq.
  - intros h s Hl HnA HnI. rewrite list_lookup_insert_ne in Hl by done.
    by eapply w_rest0.
Qed.

Lemma watching_update_activity w w' hA hI sA sI sA' :
  watching w hA hI sA sI ->
  heap w' = <[hA := sA']> (heap w) ->
  activityEvents w' = activityEvents w ->
  idleSubscription w' = idleSubscription w ->
  activitySubscription w' = activitySubscription w ->
  isIdleDetected w' = isIdleDetected w ->
  closed sA' = false -> pipeline sA' = ActivityPipe -> feed sA' = feed sA ->
  inner sA' = None ->
  watching w' hA hI sA' sI.
Proof.
  intros W Eh Ea Ei Eact Efl Hc Hp Hf Hin.
  pose proof (watching_ne _ _ _ _ _ W) as Hne. destruct W.
  assert (Hlt : (hA < length (heap w))%nat) by by eapply lookup_lt_Some.
  split; rewrite ?Eh, ?Ea, ?Ei, ?Eact, ?Efl, ?Hf; try done.
  - by rewrite list_lookup_insert_eq.
  - by rewrite list_lookup_insert_ne.
  - intros h s Hl HnA HnI. rewrite list_lookup_insert_ne in Hl by done.
    by eapply w_rest0.
Qed.

(** ** Windows *)

Lemma flush_none now h w : heap w !! h = None -> flush now h w = (w, []).
Proof. unfold flush. by intros ->. Qed.

Lemma flush_closed now h w s :
  heap w !! h = Some s -> closed s = true -> flush now h w = (w, []).
Proof. unfold flush. by intros -> ->. Qed.

Lemma stopped_flush now h w : stopped w -> flush now h w = (w, []).
Proof.
  intros [Hall _]. destruct (heap w !! h) as [s|] eqn:E.
  - eapply flush_closed; [done|].
    by destruct (proj1 (Forall_lookup _ _) Hall h s E).
  - by apply flush_none.
Qed.

Lemma flush_activity now h w s :
  heap w !! h = Some s -> closed s = false -> pipeline s = ActivityPipe ->
  flush now h w =
  let w1 := set_heap (<[h := next_window s]> (heap w)) w in
  (if is_empty (buffer s) then w1 else set_lastActivity (nowInSeconds now) w1,
   []).
Proof. unfold flush. intros -> -> ->. by destruct (is_empty (buffer s)). Qed.

Lemma flush_idle_blocked now h w s :
  heap w !! h = Some s -> closed s = false -> pipeline s = IdlePipe ->
  passes w (buffer s) = false ->
  flush now h w = (set_heap (<[h := next_window s]> (heap w)) w, []).
Proof. unfold flush, passes. intros -> -> -> H. simpl. by rewrite H. Qed.

Lemma flush_idle_passes now h w s :
  heap w !! h = Some s -> closed s = false -> pipeline s = IdlePipe ->
  passes w (buffer s) = true ->
  flush now h w =
  let cd := {| notifier := activityEvents w; tickAt := now + 1000 |} in
  (set_heap (<[h := set_inner (Some cd) (next_window s)]> (heap w))
     (set_isIdleDetected (Some (negb (counting s))) w),
   IdleStatusChanged true ::
   if counting s then [IdleStatusChanged false] else []).
Proof.
  unfold flush, passes. intros E Hc Hp H. rewrite E, Hc, Hp. simpl. rewrite H.
  rewrite andThen_eq. unfold switchMap. simpl.
  assert (Hlt : (h < length (heap w))%nat) by by eapply lookup_lt_Some.
  rewrite list_lookup_insert_eq by done. simpl. unfold counting.
  destruct (inner s); simpl; by rewrite list_insert_insert_eq.
Qed.

(** ** Countdown ticks and the timeout subject *)

Lemma tick_none now h w : heap w !! h = None -> tick now h w = (w, []).
Proof. unfold tick. by intros ->. Qed.

Lemma tick_closed now h w s :
  heap w !! h = Some s -> closed s = true -> tick now h w = (w, []).
Proof. unfold tick. by intros -> ->. Qed.

Lemma tick_no_countdown now h w s :
  heap w !! h = Some s -> inner s = None -> tick now h w = (w, []).
Proof. unfold tick. intros -> ->. by destruct (closed s). Qed.

Lemma tick_live now h w s cd :
  heap w !! h = Some s -> closed s = false -> inner s = Some cd ->
  tick now h w =
  let w1 := set_heap (<[h := set_inner (Some (next_tick cd)) s]> (heap w)) w in
  if timed_out now w then timeout_next w1 else (w1, []).
Proof. unfold tick. by intros -> -> ->. Qed.

Lemma stopped_tick now h w : stopped w -> tick now h w = (w, []).
Proof.
  intros [Hall _]. destruct (heap w !! h) as [s|] eqn:E.
  - eapply tick_closed; [done|].
    by destruct (proj1 (Forall_lookup _ _) Hall h s E).
  - by apply tick_none.
Qed.

Lemma timeout_next_eq w :
  timeout_next w =
  ((forEach (timeoutObservers w) onTimeout w).1,
   TimeoutSignal :: (forEach (timeoutObservers w) onTimeout w).2).
Proof. unfold timeout_next. by rewrite andThen_eq. Qed.

Lemma stopped_forEach_onTimeout ids w :
  stopped w -> forEach ids onTimeout w = (w, OnTimeoutNext <$> ids).
Proof.
  intros H. induction ids as [|id ids IH]; [done|].
  rewrite forEach_cons, onTimeout_eq, stopped_stopWatching by done.
  simpl. by rewrite IH.
Qed.

Lemma forEach_onTimeout_stops id ids w :
  stopped (stopWatching w).1 ->
  forEach (id :: ids) onTimeout w =
  ((stopWatching w).1, (stopWatching w).2 ++ (OnTimeoutNext <$> id :: ids)).
Proof.
  intros H. rewrite forEach_cons, onTimeout_eq. simpl.
  rewrite stopped_forEach_onTimeout by done. simpl.
  by rewrite <- app_assoc.
Qed.

(** ** Raw activity *)

Lemma deliver_closed src p s : closed s = true -> deliver src p s = s.
Proof. unfold deliver. by intros ->. Qed.

Lemma listens_closed src s : closed s = true -> listens src s = false.
Proof. unfold listens. by intros ->. Qed.

Lemma listens_no_countdown src s : inner s = None -> listens src s = false.
Proof. unfold listens. intros ->. by destruct (closed s). Qed.

Lemma filter_single {A} (P : A -> Prop) `{!forall x, Decision (P x)}
    (l : list A) (h : nat) (x : A) :
  l !! h = Some x ->
  (forall i y, l !! i = Some y -> i <> h -> ~ P y) ->
  filter P l = if decide (P x) then [x] else [].
Proof.
  revert h. induction l as [|y l IH]; intros h Hl Hrest; [done|].
  rewrite filter_cons. destruct h as [|h]; simpl in Hl.
  - injection Hl as ->.
    assert (E : filter P l = []).
    { clear IH. induction l as [|z l IHl]; [done|].
      rewrite filter_cons. destruct (decide (P z)) as [Hz|_].
      - by destruct (Hrest 1%nat z).
      - apply IHl. intros i y' Hi Hne. destruct i as [|i]; [done|].
        destruct i as [|i].
        + simpl in Hi. by eapply (Hrest 2%nat).
        + by eapply (Hrest (S (S (S i)))). }
    rewrite E. by destruct (decide (P x)).
  - destruct (decide (P y)) as [Hy|_].
    + by destruct (Hrest 0%nat y).
    + apply (IH h Hl). intros i y' Hi Hne. eapply (Hrest (S i)); [done|lia].
Qed.

Lemma shut_deliver src p (l : list Subscription) :
  Forall shut l ->
  deliver src p <$> l = l /\
  filter (fun s => listens src s = true) l = [].
Proof.
  induction 1 as [|s l [Hs _] _ [IH1 IH2]]; [done|].
  rewrite fmap_cons, filter_cons, IH1, IH2, deliver_closed, listens_closed
    by done.
  by destruct (decide _).
Qed.

Lemma stopped_activity src p w : stopped w -> activity src p w = (w, []).
Proof.
  intros [Hall Hfl]. unfold activity.
  destruct (shut_deliver src p _ Hall) as [-> ->]. by destruct w.
Qed.

Lemma watching_activity_heap src p w hA hI sA sI :
  watching w hA hI sA sI ->
  deliver src p <$> heap w =
  <[hA := deliver src p sA]> (<[hI := deliver src p sI]> (heap w)).
Proof.
  intros W. pose proof (watching_ne _ _ _ _ _ W) as Hne. destruct W.
  apply list_eq. intros i. rewrite list_lookup_fmap.
  destruct (decide (i = hA)) as [->|HnA].
  - rewrite list_lookup_insert_eq
      by (rewrite length_insert; by eapply lookup_lt_Some).
    by rewrite w_lookA0.
  - rewrite list_lookup_insert_ne by done.
    destruct (decide (i = hI)) as [->|HnI].
    + rewrite list_lookup_insert_eq by by eapply lookup_lt_Some.
      by rewrite w_lookI0.
    + rewrite list_lookup_insert_ne by done.
      destruct (heap w !! i) as [s|] eqn:E; [|done]. simpl.
      destruct (w_rest0 i s E HnA HnI) as [Hc _]. by rewrite deliver_closed.
Qed.

Lemma watching_activity_cancelled src w hA hI sA sI :
  watching w hA hI sA sI ->
  filter (fun s => listens src s = true) (heap w) =
  if listens src sI then [sI] else [].
Proof.
  intros W. pose proof (watching_ne _ _ _ _ _ W) as Hne. destruct W.
  rewrite (filter_single _ (heap w) hI sI w_lookI0).
  - destruct (listens src sI); by destruct (decide _).
  - intros i y Hi HnI. destruct (decide (i = hA)) as [->|HnA].
    + assert (y = sA) as -> by congruence.
      by rewrite listens_no_countdown.
    + destruct (w_rest0 i y Hi HnA HnI) as [Hc _].
      by rewrite listens_closed.
Qed.

Lemma watching_activity src p w hA hI sA sI :
  watching w hA hI sA sI ->
  activity src p w =
  let hp := <[hA := deliver src p sA]> (<[hI := deliver src p sI]> (heap w)) in
  if listens src sI
  then (set_isIdleDetected (Some false) (set_heap hp w), [IdleStatusChanged false])
  else (set_heap hp w, []).
Proof.
  intros W. unfold activity.
  rewrite (watching_activity_heap src p _ _ _ _ _ W).
  rewrite (watching_activity_cancelled src _ _ _ _ _ W).
  by destruct (listens src sI).
Qed.

(** ** The session invariant *)

Lemma stopped_ext w w' :
  heap w' = heap w -> isIdleDetected w' = isIdleDetected w ->
  stopped w -> stopped w'.
Proof. unfold stopped. by intros -> ->. Qed.

Lemma watching_ext w w' hA hI sA sI :
  heap w' = heap w -> isIdleDetected w' = isIdleDetected w ->
  activityEvents w' = activityEvents w ->
  idleSubscription w' = idleSubscription w ->
  activitySubscription w' = activitySubscription w ->
  watching w hA hI sA sI -> watching w' hA hI sA sI.
Proof.
  intros E1 E2 E3 E4 E5 []. split; rewrite ?E1, ?E2, ?E3, ?E4, ?E5; done.
Qed.

Lemma watching_flush_activity now w hA hI sA sI :
  watching w hA hI sA sI ->
  (flush now hA w).2 = [] /\
  watching (flush now hA w).1 hA hI (next_window sA) sI.
Proof.
  intros W. pose proof W as [].
  rewrite (flush_activity now hA w sA) by done. simpl. split; [done|].
  eapply watching_update_activity; first done;
    by destruct (is_empty (buffer sA)).
Qed.

Lemma watching_passes w hA hI sA sI :
  watching w hA hI sA sI -> passes w (buffer sI) = true -> inner sI = None.
Proof.
  intros [] H. unfold passes in H. apply andb_prop in H as [_ H].
  rewrite w_flag0 in H. unfold counting in H. by destruct (inner sI).
Qed.

Lemma watching_flush_idle_blocked now w hA hI sA sI :
  watching w hA hI sA sI -> passes w (buffer sI) = false ->
  (flush now hI w).2 = [] /\
  watching (flush now hI w).1 hA hI sA (next_window sI).
Proof.
  intros W Hp. pose proof W as [].
  rewrite (flush_idle_blocked now hI w sI) by done. simpl. split; [done|].
  by eapply watching_update_idle.
Qed.

Lemma watching_flush_idle_passes now w hA hI sA sI :
  watching w hA hI sA sI -> passes w (buffer sI) = true ->
  (flush now hI w).2 = [IdleStatusChanged true] /\
  watching (flush now hI w).1 hA hI sA
    (set_inner (Some {| notifier := activityEvents w; tickAt := now + 1000 |})
       (next_window sI)).
Proof.
  intros W Hp. pose proof (watching_passes _ _ _ _ _ W Hp) as Hin.
  pose proof W as [].
  rewrite (flush_idle_passes now hI w sI) by done.
  unfold counting. rewrite Hin. simpl. split; [done|].
  eapply watching_update_idle; first done; try done.
  simpl. intros cd [= <-]. done.
Qed.

Lemma watching_flush_other now h w hA hI sA sI :
  watching w hA hI sA sI -> h <> hA -> h <> hI -> flush now h w = (w, []).
Proof.
  intros [] HnA HnI. destruct (heap w !! h) as [s|] eqn:E.
  - destruct (w_rest0 h s E HnA HnI) as [Hc _]. by eapply flush_closed.
  - by apply flush_none.
Qed.

Lemma watching_tick_other now h w hA hI sA sI :
  watching w hA hI sA sI -> h <> hI -> tick now h w = (w, []).
Proof.
  intros [] HnI. destruct (heap w !! h) as [s|] eqn:E.
  - destruct (decide (h = hA)) as [->|HnA].
    + eapply tick_no_countdown; [done|]. congruence.
    + destruct (w_rest0 h s E HnA HnI) as [Hc _]. by eapply tick_closed.
  - by apply tick_none.
Qed.

Lemma watching_tick_idle now w hA hI sA sI cd :
  watching w hA hI sA sI -> inner sI = Some cd ->
  let w1 :=
    set_heap (<[hI := set_inner (Some (next_tick cd)) sI]> (heap w)) w in
  tick now hI w = (if timed_out now w then timeout_next w1 else (w1, [])) /\
  watching w1 hA hI sA (set_inner (Some (next_tick cd)) sI).
Proof.
  intros W Hin w1. pose proof W as []. split.
  - by apply tick_live.
  - eapply watching_update_idle; first done; try done.
    + simpl. intros cd' [= <-]. simpl. by apply w_notifier0.
    + simpl. rewrite w_flag0. unfold counting. by rewrite Hin.
Qed.

(** [timeout$.next(true)] during a session: the first subscriber's pipeline
    stops the session, the others find it stopped. *)
Lemma watching_timeout_next w hA hI sA sI :
  watching w hA hI sA sI ->
  timeout_next w =
  match timeoutObservers w with
  | [] => (w, [TimeoutSignal])
  | ids =>
      ((stopWatching w).1,
       TimeoutSignal :: (stopWatching w).2 ++ (OnTimeoutNext <$> ids))
  end.
Proof.
  intros W. rewrite timeout_next_eq.
  destruct (timeoutObservers w) as [|id ids]; [done|].
  rewrite forEach_onTimeout_stops; [done|].
  by eapply watching_stopWatching_stopped.
Qed.

Lemma fresh_observers_frame w w' :
  frame w w' -> fresh_observers w -> fresh_observers w'.
Proof. intros (_ & E1 & E2). unfold fresh_observers. by rewrite E1, E2. Qed.

Lemma Inv_init cfg t0 : Inv (constructor cfg t0).
Proof.
  split.
  - split; [constructor|]. intros i Hi. by apply elem_of_nil in Hi.
  - left. by split.
Qed.

Lemma Inv_startWatching now w :
  Inv w ->
  watching (startWatching now w).1
    (length (heap w)) (S (length (heap w)))
    (new_subscription ActivityPipe now (install_default (stopWatching w).1).1)
    (new_subscription IdlePipe now (install_default (stopWatching w).1).1).
Proof.
  intros HI. rewrite startWatching_eq. simpl.
  rewrite <- (stopWatching_length w).
  apply stopped_fresh_session. by apply Inv_stopWatching.
Qed.

Lemma watching_idle_live w hA hI sA sI :
  watching w hA hI sA sI -> idle_live w = true.
Proof. intros []. unfold idle_live. by rewrite w_idle0, w_lookI0, w_openI0. Qed.

Lemma watching_deliver src p w hA hI sA sI :
  watching w hA hI sA sI ->
  watching (activity src p w).1 hA hI (deliver src p sA) (deliver src p sI).
Proof.
  intros W. rewrite (watching_activity src p _ _ _ _ _ W).
  pose proof (watching_ne _ _ _ _ _ W) as Hne. pose proof W as [].
  set (wm := set_heap (<[hI := deliver src p sI]> (heap w))
               (if listens src sI then set_isIdleDetected (Some false) w else w)).
  assert (Wm : watching wm hA hI sA (deliver src p sI)).
  { eapply watching_update_idle; first done; unfold wm;
      try (by destruct (listens src sI)); unfold deliver; rewrite w_openI0;
      simpl; try done.
    - intros cd. destruct (listens src sI); [done|]. apply w_notifier0.
    - unfold counting. simpl. destruct (listens src sI) eqn:L; [done|].
      simpl. by rewrite w_flag0. }
  assert (Wf : watching
            (set_heap (<[hA := deliver src p sA]> (heap wm)) wm)
            hA hI (deliver src p sA) (deliver src p sI)).
  { eapply watching_update_activity; first done; try done;
      unfold deliver; rewrite w_openA0; simpl; try done.
    by rewrite listens_no_countdown. }
  unfold wm in Wf. simpl in *.
  destruct (listens src sI); exact Wf.
Qed.

Lemma step_Inv now e w : Inv w -> Inv (step now e w).1.
Proof.
  intros HI. pose proof HI as [Hobs Hph].
  destruct (decide (observer_event e)) as [He|He].
  { assert (Hph' : forall l n,
              stopped (set_observers l n w) \/
              exists hA hI sA sI, watching (set_observers l n w) hA hI sA sI).
    { intros l n. destruct Hph as [S|(hA & hI & sA & sI & W)].
      - left. by apply (stopped_ext w).
      - right. exists hA, hI, sA, sI. by apply (watching_ext w). }
    destruct e; try done; simpl; (split; [|apply Hph']).
    - destruct Hobs as [Hnd Hlt]. split; simpl.
      + apply NoDup_app. split; [done|]. split; [|apply NoDup_singleton].
        intros x Hx ->%list_elem_of_singleton. apply Hlt in Hx. lia.
      + intros i [Hi| ->%list_elem_of_singleton]%elem_of_app; [|lia].
        apply Hlt in Hi. lia.
    - destruct Hobs as [Hnd Hlt]. split; simpl.
      + by apply NoDup_filter.
      + intros i [_ Hi]%list_elem_of_filter. by apply Hlt. }
  split; [by eapply fresh_observers_frame; [apply step_frame|]|].
  destruct e; simpl; try (by destruct He).
  - right. do 4 eexists. by apply Inv_startWatching.
  - left. by apply Inv_stopWatching.
  - unfold setCustomActivityEvents.
    destruct Hph as [S|(hA & hI & sA & sI & W)].
    + destruct (idle_live w); [by left|]. left. by eapply stopped_ext.
    + rewrite (watching_idle_live _ _ _ _ _ W). right. by exists hA, hI, sA, sI.
  - destruct Hph as [S|(hA & hI & sA & sI & W)].
    + rewrite stopped_activity by done. by left.
    + right. do 4 eexists. by apply watching_deliver.
  - destruct Hph as [S|(hA & hI & sA & sI & W)].
    + rewrite stopped_flush by done. by left.
    + right. destruct (decide (h = hA)) as [->|HnA].
      { do 4 eexists. by apply watching_flush_activity. }
      destruct (decide (h = hI)) as [->|HnI].
      { destruct (passes w (buffer sI)) eqn:Hp.
        - do 4 eexists. by apply watching_flush_idle_passes.
        - do 4 eexists. by apply watching_flush_idle_blocked. }
      rewrite (watching_flush_other now h _ _ _ _ _ W) by done.
      by exists hA, hI, sA, sI.
  - destruct Hph as [S|(hA & hI & sA & sI & W)].
    + rewrite stopped_tick by done. by left.
    + destruct (decide (h = hI)) as [->|HnI].
      2:{ rewrite (watching_tick_other now h _ _ _ _ _ W) by done.
          right. by exists hA, hI, sA, sI. }
      destruct (inner sI) as [cd|] eqn:Hin.
      2:{ destruct W. rewrite (tick_no_countdown now hI w sI) by done.
          right. exists hA, hI, sA, sI. by split. }
      destruct (watching_tick_idle now _ _ _ _ _ cd W Hin) as [-> W1].
      destruct (timed_out now w); [|right; by do 4 eexists].
      rewrite (watching_timeout_next _ _ _ _ _ W1). simpl.
      destruct (timeoutObservers w); [right; by do 4 eexists|].
      left. simpl. by eapply watching_stopWatching_stopped.
Qed.

Lemma run_Inv evs w : Inv w -> Inv (run evs w).1.
Proof.
  revert w. induction evs as [|[now e] evs IH]; intros w HI; [done|].
  rewrite run_cons. simpl. by apply IH, step_Inv.
Qed.

Lemma reachable_Inv w : reachable w -> Inv w.
Proof. intros (cfg & t0 & evs & ->). apply run_Inv, Inv_init. Qed.

(** ** Silent runs refine the idle state machine *)

Lemma quiet_insert w w' h s' :
  quiet w -> (closed s' = false -> buffer s' = []) ->
  heap w' = <[h := s']> (heap w) -> quiet w'.
Proof. unfold quiet. intros Q Hs ->. by apply Forall_insert. Qed.

Ltac solve_quiet :=
  eapply quiet_insert; [eassumption | | simpl; reflexivity];
  simpl; intros; first [reflexivity | assumption].

Lemma quiet_lookup w h s :
  quiet w -> heap w !! h = Some s -> closed s = false -> buffer s = [].
Proof. intros Q Hl. by apply (proj1 (Forall_lookup _ _) Q h s). Qed.

Lemma timed_out_eq now w t :
  timeout (config w) = Some t ->
  timed_out now w = (lastActivity w + t <? nowInSeconds now).
Proof. unfold timed_out. by intros ->. Qed.

Lemma silent_step_refines hI w ph now e t :
  in_phase hI w ph -> timeout (config w) = Some t -> timer_event e ->
  let w' := (step now e w).1 in
  let m := machine_step hI (lastActivity w) t (timeoutObservers w) ph now e in
  (step now e w).2 = m.2 /\ in_phase hI w' m.1 /\
  lastActivity w' = lastActivity w.
Proof.
  intros Hph Ht He. destruct ph; simpl in Hph.
  - (* ACTIVE *)
    destruct Hph as (Q & hA & sA & sI & W & C).
    pose proof (watching_ne _ _ _ _ _ W) as Hne. pose proof W as [].
    assert (BA : buffer sA = []) by by eapply quiet_lookup.
    assert (BI : buffer sI = []) by by eapply quiet_lookup.
    destruct e; try done; simpl.
    + unfold is_handle. case_bool_decide as Hh.
      * subst h.
        assert (Hp : passes w (buffer sI) = true).
        { unfold passes. rewrite BI, w_flag0, C. done. }
        destruct (watching_flush_idle_passes now _ _ _ _ _ W Hp) as [-> W'].
        simpl. split; [done|]. split.
        -- split; [|do 3 eexists; split; [exact W'|done]].
           rewrite (flush_idle_passes now hI w sI) by done. simpl.
           solve_quiet.
        -- by rewrite (flush_idle_passes now hI w sI).
      * destruct (decide (h = hA)) as [->|HnA].
        -- destruct (watching_flush_activity now _ _ _ _ _ W) as [-> W'].
           simpl. rewrite (flush_activity now hA w sA) in * by done.
           rewrite BA in *. simpl in *. split; [done|]. split; [|done].
           split; [solve_quiet|]. by do 3 eexists.
        -- rewrite (watching_flush_other now h _ _ _ _ _ W) by done.
           simpl. split; [done|]. split; [|done]. split; [done|]. by do 3 eexists.
    + assert (E : tick now h w = (w, [])).
      { destruct (decide (h = hI)) as [->|HnI].
        - eapply tick_no_countdown; [done|]. unfold counting in C.
          by destruct (inner sI).
        - by eapply watching_tick_other. }
      rewrite E. simpl. split; [done|]. split; [|done]. split; [done|].
      by do 3 eexists.
  - (* IDLE *)
    destruct Hph as (Q & hA & sA & sI & W & C).
    pose proof (watching_ne _ _ _ _ _ W) as Hne. pose proof W as [].
    assert (BA : buffer sA = []) by by eapply quiet_lookup.
    assert (BI : buffer sI = []) by by eapply quiet_lookup.
    destruct e; try done; simpl.
    + destruct (decide (h = hI)) as [->|HnI].
      * assert (Hp : passes w (buffer sI) = false).
        { unfold passes. rewrite BI, w_flag0, C. done. }
        destruct (watching_flush_idle_blocked now _ _ _ _ _ W Hp) as [-> W'].
        rewrite (flush_idle_blocked now hI w sI) in * by done. simpl in *.
        split; [done|]. split; [|done].
        split; [solve_quiet|]. by do 3 eexists.
      * destruct (decide (h = hA)) as [->|HnA].
        -- destruct (watching_flush_activity now _ _ _ _ _ W) as [-> W'].
           simpl. rewrite (flush_activity now hA w sA) in * by done.
           rewrite BA in *. simpl in *. split; [done|]. split; [|done].
           split; [solve_quiet|]. by do 3 eexists.
        -- rewrite (watching_flush_other now h _ _ _ _ _ W) by done.
           simpl. split; [done|]. split; [|done]. split; [done|]. by do 3 eexists.
    + unfold is_handle. case_bool_decide as Hh; simpl.
      2:{ rewrite (watching_tick_other now h _ _ _ _ _ W) by done.
          simpl. split; [done|]. split; [|done]. split; [done|]. by do 3 eexists. }
      subst h. destruct (inner sI) as [cd|] eqn:Hin; [|by unfold counting in C; rewrite Hin in C].
      destruct (watching_tick_idle now _ _ _ _ _ cd W Hin) as [-> W1].
      rewrite (timed_out_eq now w t Ht).
      set (w1 := set_heap _ w) in *.
      assert (Q1 : quiet w1) by solve_quiet.
      destruct (lastActivity w + t <? nowInSeconds now).
      2:{ simpl. split; [done|]. split; [|done]. split; [done|].
          do 3 eexists. split; [exact W1|done]. }
      rewrite (watching_timeout_next _ _ _ _ _ W1).
      change (timeoutObservers w1) with (timeoutObservers w).
      destruct (timeoutObservers w) as [|id ids] eqn:Eobs.
      * simpl. split; [done|]. split; [|done]. split; [done|].
        do 3 eexists. split; [exact W1|done].
      * rewrite (watching_stopWatching _ _ _ _ _ W1). simpl.
        split; [done|]. split; [|done].
        pose proof (watching_stopWatching_stopped _ _ _ _ _ W1) as S.
        by rewrite (watching_stopWatching _ _ _ _ _ W1) in S.
  - (* STOPPED *)
    destruct e; try done; simpl.
    + by rewrite stopped_flush.
    + by rewrite stopped_tick.
Qed.

Lemma silent_run_refines hI evs : forall w ph t,
  in_phase hI w ph -> timeout (config w) = Some t ->
  Forall (fun te => timer_event te.2) evs ->
  let m := machine_run hI (lastActivity w) t (timeoutObservers w) ph evs in
  (run evs w).2 = m.2 /\ in_phase hI (run evs w).1 m.1 /\
  lastActivity (run evs w).1 = lastActivity w.
Proof.
  induction evs as [|[now e] evs IH]; intros w ph t Hph Ht Hall; [done|].
  apply Forall_cons in Hall as [He Hall]. simpl in He.
  destruct (silent_step_refines hI w ph now e t Hph Ht He) as (Eo & Hph' & El).
  assert (Hfr : frame w (step now e w).1).
  { apply step_frame. destruct e; simpl in *; tauto. }
  destruct Hfr as (Ec & Eobs & _).
  rewrite run_cons. simpl.
  destruct (machine_step hI (lastActivity w) t (timeoutObservers w) ph now e)
    as [ph1 o1] eqn:Em. simpl in *.
  specialize (IH (step now e w).1 ph1 t Hph').
  rewrite Ec, El, Eobs in IH. specialize (IH Ht Hall).
  destruct (machine_run hI (lastActivity w) t (timeoutObservers w) ph1 evs)
    as [ph2 o2]. simpl in *.
  destruct IH as (-> & ? & ->). by rewrite Eo.
Qed.

(** ** The idle state machine *)

Lemma machine_run_stopped hI last t obs evs :
  machine_run hI last t obs STOPPED evs = (STOPPED, []).
Proof.
  induction evs as [|[now e] evs IH]; [done|]. simpl. by rewrite IH.
Qed.

Lemma machine_run_app hI last t obs ph evs1 evs2 :
  machine_run hI last t obs ph (evs1 ++ evs2) =
  let m1 := machine_run hI last t obs ph evs1 in
  let m2 := machine_run hI last t obs m1.1 evs2 in
  (m2.1, m1.2 ++ m2.2).
Proof.
  revert ph. induction evs1 as [|[now e] evs1 IH]; intros ph; simpl.
  - by destruct (machine_run hI last t obs ph evs2).
  - destruct (machine_step hI last t obs ph now e) as [ph1 o1].
    rewrite IH. simpl.
    destruct (machine_run hI last t obs ph1 evs1) as [ph2 o2]. simpl.
    destruct (machine_run hI last t obs ph2 evs2) as [ph3 o3]. simpl.
    by rewrite app_assoc.
Qed.

Lemma machine_run_cons hI last t obs ph now e evs :
  machine_run hI last t obs ph ((now, e) :: evs) =
  let m1 := machine_step hI last t obs ph now e in
  let m2 := machine_run hI last t obs m1.1 evs in
  (m2.1, m1.2 ++ m2.2).
Proof.
  simpl. destruct (machine_step hI last t obs ph now e) as [ph1 o1]. simpl.
  by destruct (machine_run hI last t obs ph1 evs).
Qed.

(** With a subscriber of [onTimeout()], a countdown fires at most once. *)
Lemma machine_run_idle hI last t id ids evs :
  let m := machine_run hI last t (id :: ids) IDLE evs in
  m = (IDLE, []) \/ m = (STOPPED, timeout_fired (id :: ids)).
Proof.
  induction evs as [|[now e] evs IH]; [by left|].
  rewrite machine_run_cons. cbv zeta in *.
  destruct e; cbn [machine_step fst snd app];
    try (destruct IH as [-> | ->]; [by left|by right]).
  destruct (is_handle hI h && (last + t <? nowInSeconds now));
    cbn [fst snd app].
  - right. rewrite machine_run_stopped. cbn [fst snd]. by rewrite app_nil_r.
  - destruct IH as [-> | ->]; [by left|by right].
Qed.

Lemma machine_run_idle_fires hI last t id ids pre now post :
  last + t < nowInSeconds now ->
  (machine_run hI last t (id :: ids) IDLE (pre ++ (now, Tick hI) :: post)).1
  = STOPPED.
Proof.
  intros Hc. rewrite machine_run_app. cbv zeta.
  destruct (machine_run_idle hI last t id ids pre) as [-> | ->]; cbn [fst snd].
  - rewrite machine_run_cons. cbv zeta. cbn [machine_step]. unfold is_handle.
    rewrite bool_decide_eq_true_2 by done.
    apply Z.ltb_lt in Hc. rewrite Hc. cbn [andb fst snd].
    by rewrite machine_run_stopped.
  - by rewrite machine_run_stopped.
Qed.

Lemma machine_run_active hI last t id ids evs :
  let m := machine_run hI last t (id :: ids) ACTIVE evs in
  m = (ACTIVE, []) \/ m = (IDLE, [IdleStatusChanged true]) \/
  m = (STOPPED, IdleStatusChanged true :: timeout_fired (id :: ids)).
Proof.
  induction evs as [|[now e] evs IH]; [by left|].
  rewrite machine_run_cons. cbv zeta in *.
  destruct e; cbn [machine_step fst snd app];
    try (destruct IH as [-> | [-> | ->]];
         [by left|by right; left|by right; right]).
  destruct (is_handle hI h); cbn [fst snd app].
  - destruct (machine_run_idle hI last t id ids evs) as [E | E];
      cbv zeta in E; rewrite E; [by right; left|by right; right].
  - destruct IH as [-> | [-> | ->]]; [by left|by right; left|by right; right].
Qed.

Lemma machine_run_active_fires hI last t id ids pre t1 mid t2 post :
  last + t < nowInSeconds t2 ->
  (machine_run hI last t (id :: ids) ACTIVE
     (pre ++ (t1, Flush hI) :: mid ++ (t2, Tick hI) :: post)).1 = STOPPED.
Proof.
  intros Hc. rewrite machine_run_app. cbv zeta.
  destruct (machine_run_active hI last t id ids pre) as [-> | [-> | ->]];
    cbn [fst snd].
  - rewrite machine_run_cons. cbv zeta. cbn [machine_step]. unfold is_handle.
    rewrite bool_decide_eq_true_2 by done. cbn [fst snd].
    by apply machine_run_idle_fires.
  - pose proof (machine_run_idle_fires hI last t id ids
                  ((t1, Flush hI) :: mid) t2 post Hc) as E.
    by rewrite <- app_comm_cons in E.
  - by rewrite machine_run_stopped.
Qed.

Lemma nowInSeconds_mono a b : a <= b -> nowInSeconds a <= nowInSeconds b.
Proof. intros H. unfold nowInSeconds. apply Z.div_le_mono; lia. Qed.

(** Without a subscriber of [onTimeout()], the countdown never stops. *)
Lemma machine_run_unobserved hI last t now0 evs :
  last + t < nowInSeconds now0 ->
  Forall (fun te => now0 <= te.1) evs ->
  machine_run hI last t [] IDLE evs = (IDLE, repeated_signals hI evs).
Proof.
  intros Hc. induction 1 as [|[now e] evs Hle _ IH]; [done|].
  rewrite machine_run_cons. cbv zeta. simpl in Hle.
  assert (Hc' : (last + t <? nowInSeconds now) = true).
  { apply Z.ltb_lt. pose proof (nowInSeconds_mono _ _ Hle). lia. }
  unfold repeated_signals. cbn [flat_map]. fold (repeated_signals hI evs).
  destruct e; cbn [machine_step fst snd app signal_of_tick]; rewrite ?IH; try done.
  rewrite Hc', andb_true_r.
  destruct (is_handle hI h); cbn [fst snd app]; by rewrite IH.
Qed.

(** ** A stopped service *)

Lemma stopped_idle_live w : stopped w -> idle_live w = false.
Proof.
  intros [Hall _]. unfold idle_live. destruct (idleSubscription w) as [h|]; [|done].
  destruct (heap w !! h) as [s|] eqn:E; [|done].
  by destruct (proj1 (Forall_lookup _ _) Hall h s E) as [-> _].
Qed.

Lemma stopped_step now e w :
  stopped w -> e <> StartWatching ->
  (step now e w).2 = [] /\ stopped (step now e w).1.
Proof.
  intros S He. destruct e; try done; simpl.
  - by rewrite stopped_stopWatching.
  - unfold setCustomActivityEvents. rewrite stopped_idle_live by done.
    split; [done|]. by eapply stopped_ext.
  - by rewrite stopped_activity.
  - by rewrite stopped_flush.
  - by rewrite stopped_tick.
Qed.

Lemma stopped_run evs w :
  stopped w -> Forall (fun te => te.2 <> StartWatching) evs ->
  (run evs w).2 = [] /\ stopped (run evs w).1.
Proof.
  intros S Hall. revert w S.
  induction Hall as [|[now e] evs He _ IH]; intros w S; [done|].
  rewrite run_cons. simpl in *.
  destruct (stopped_step now e w S He) as [-> S'].
  by apply IH.
Qed.

(** ** [stopWatching()] in any state *)

Lemma unsubscribe_opt_idle o w :
  live_at w o = false -> unsubscribe_opt o w = (w, []).
Proof.
  destruct o as [h|]; [|done]. simpl. intros H.
  destruct (heap w !! h) as [s|] eqn:E.
  - eapply unsubscribe_closed; [done|]. by destruct (closed s).
  - by apply unsubscribe_none.
Qed.

Lemma unsubscribe_opt_lookup o w h' s' :
  heap (unsubscribe_opt o w).1 !! h' = Some s' ->
  heap w !! h' = Some s' \/ shut s'.
Proof.
  destruct o as [h|]; [|by left]. unfold unsubscribe_opt, unsubscribe.
  destruct (heap w !! h) as [s|] eqn:E; [|by left].
  destruct (closed s) eqn:C; [by left|].
  assert (Hh : heap (if counting s
                     then set_isIdleDetected (Some false)
                            (set_heap (<[h:=set_closed s]> (heap w)) w)
                     else set_heap (<[h:=set_closed s]> (heap w)) w)
               = <[h:=set_closed s]> (heap w)) by by destruct (counting s).
  unfold counting in Hh. intros Hl.
  assert (Hl' : <[h:=set_closed s]> (heap w) !! h' = Some s').
  { rewrite <- Hh. by destruct (inner s). }
  apply list_lookup_insert_Some in Hl' as [(-> & <- & _)|(_ & Hl')];
    [by right|by left].
Qed.

Lemma unsubscribe_opt_closes o w : live_at (unsubscribe_opt o w).1 o = false.
Proof.
  destruct (live_at w o) eqn:L.
  2:{ by rewrite unsubscribe_opt_idle. }
  destruct o as [h|]; [|done]. unfold unsubscribe_opt. simpl in *.
  destruct (heap w !! h) as [s|] eqn:E; [|done].
  destruct (closed s) eqn:C; [done|].
  rewrite (unsubscribe_open h w s) by done. simpl.
  assert (Hlt : (h < length (heap w))%nat) by by eapply lookup_lt_Some.
  destruct (counting s); simpl; by rewrite list_lookup_insert_eq.
Qed.

Lemma unsubscribe_opt_live_at o w o' :
  live_at w o' = false -> live_at (unsubscribe_opt o w).1 o' = false.
Proof.
  destruct o' as [h'|]; [|done]. simpl. intros H.
  destruct (heap (unsubscribe_opt o w).1 !! h') as [s'|] eqn:E; [|done].
  apply unsubscribe_opt_lookup in E as [E|[E _]].
  - by rewrite E in H.
  - by rewrite E.
Qed.

Lemma unsubscribe_opt_counting_at o w o' :
  counting_at w o' = false -> counting_at (unsubscribe_opt o w).1 o' = false.
Proof.
  destruct o' as [h'|]; [|done]. simpl. intros H.
  destruct (heap (unsubscribe_opt o w).1 !! h') as [s'|] eqn:E; [|done].
  apply unsubscribe_opt_lookup in E as [E|[E _]].
  - by rewrite E in H.
  - by rewrite E.
Qed.

Lemma unsubscribe_opt_flag o w :
  let r := unsubscribe_opt o w in
  if counting_at w o
  then isIdleDetected r.1 = Some false /\ r.2 = [IdleStatusChanged false]
  else isIdleDetected r.1 = isIdleDetected w /\ r.2 = [].
Proof.
  destruct o as [h|]; [|done]. unfold unsubscribe_opt. simpl.
  destruct (heap w !! h) as [s|] eqn:E.
  2:{ by rewrite unsubscribe_none. }
  destruct (closed s) eqn:C; simpl.
  { by rewrite (unsubscribe_closed h w s). }
  rewrite (unsubscribe_open h w s) by done. simpl.
  by destruct (counting s).
Qed.

(** C2, as the code has it: [stopWatching()] never writes [lastActivity]; it
    leaves both subscriptions closed; it does nothing at all when neither is
    open; it leaves [isIdleDetected] alone and emits nothing when no countdown
    is live; but when the idle pipeline holds a live countdown, unsubscribing
    it runs the countdown's [finalize]: [isIdleDetected] becomes [false] and
    [false] is emitted on the idle-status stream. *)
Theorem stopWatching_effect (w : UserIdleService) :
  let r := stopWatching w in
  lastActivity r.1 = lastActivity w /\
  live_at r.1 (idleSubscription w) = false /\
  live_at r.1 (activitySubscription w) = false /\
  (live_at w (idleSubscription w) = false ->
   live_at w (activitySubscription w) = false -> r = (w, [])) /\
  (counting_at w (idleSubscription w) = false ->
   counting_at w (activitySubscription w) = false ->
   isIdleDetected r.1 = isIdleDetected w /\ r.2 = []) /\
  (counting_at w (idleSubscription w) = true ->
   isIdleDetected r.1 = Some false /\ In (IdleStatusChanged false) r.2).
Proof.
  cbv zeta. rewrite stopWatching_eq, andThen_eq. cbn [fst snd].
  set (oI := idleSubscription w). set (oA := activitySubscription w).
  set (w1 := (unsubscribe_opt oI w).1).
  split; [|split; [|split; [|split; [|split]]]].
  - transitivity (lastActivity w1).
    + apply unsubscribe_opt_static.
    + apply unsubscribe_opt_static.
  - apply unsubscribe_opt_live_at, unsubscribe_opt_closes.
  - apply unsubscribe_opt_closes.
  - intros H1 H2. unfold w1. rewrite (unsubscribe_opt_idle oI w H1).
    cbn [fst snd]. by rewrite (unsubscribe_opt_idle oA w H2).
  - intros H1 H2.
    pose proof (unsubscribe_opt_flag oI w) as F1. rewrite H1 in F1.
    pose proof (unsubscribe_opt_flag oA w1) as F2.
    pose proof (unsubscribe_opt_counting_at oI w oA H2) as H2'.
    fold w1 in H2'. rewrite H2' in F2.
    cbv zeta in F1, F2. destruct F1 as [F1 ->], F2 as [F2 ->].
    split; [|done]. by rewrite F2.
  - intros H1.
    pose proof (unsubscribe_opt_flag oI w) as F1. rewrite H1 in F1.
    pose proof (unsubscribe_opt_flag oA w1) as F2.
    cbv zeta in F1, F2. destruct F1 as [F1 ->].
    destruct (counting_at w1 oA); destruct F2 as [F2 ->].
    + split; [done|]. by left.
    + split; [by rewrite F2|]. by left.
Qed.

Lemma reachable_watching_state : reachable watching_state.
Proof. apply reachable_run, reachable_init. Qed.

Lemma reachable_idle_state : reachable idle_state.
Proof. apply reachable_run, reachable_watching_state. Qed.

Lemma stopWatching_effect_witness :
  isIdleDetected idle_state = Some true /\
  isIdleDetected (stopWatching idle_state).1 = Some false /\
  In (IdleStatusChanged false) (stopWatching idle_state).2.
Proof.
  split; [reflexivity|].
  pose proof (stopWatching_effect idle_state) as H. cbv zeta in H.
  destruct H as (_ & _ & _ & _ & _ & H). apply H. reflexivity.
Defined.

(** C2 as stated fails: in a reachable state with a live countdown,
    [stopWatching()] changes [isIdleDetected] from [true] to [false]. *)
Lemma stopWatching_resets_idle_flag :
  ~ (forall w, reachable w ->
       isIdleDetected (stopWatching w).1 = isIdleDetected w).
Proof.
  intros H. specialize (H idle_state reachable_idle_state).
  vm_compute in H. discriminate H.
Qed.

(** ** The timeout comparison *)

(** C9: on a tick of a live countdown the internal timeout signal is emitted
    exactly when [lastActivity + timeout < floor(now / 1000)], a strict
    comparison of whole seconds; at a tick whose whole-second time equals
    [lastActivity + timeout] nothing is emitted. *)
Theorem tick_timeout_strict (w : UserIdleService) (now : Z) (h : nat)
    (s : Subscription) (cd : Countdown) (t : Z) :
  heap w !! h = Some s -> closed s = false -> inner s = Some cd ->
  timeout (config w) = Some t ->
  (In TimeoutSignal (tick now h w).2 <->
   lastActivity w + t < nowInSeconds now) /\
  (nowInSeconds now = lastActivity w + t -> (tick now h w).2 = []) /\
  1000 * nowInSeconds now <= now < 1000 * nowInSeconds now + 1000.
Proof.
  intros Hl Hc Hin Ht. rewrite (tick_live now h w s cd) by done. cbv zeta.
  rewrite (timed_out_eq now w t Ht).
  split; [|split].
  - destruct (Z.ltb_spec (lastActivity w + t) (nowInSeconds now)) as [H|H].
    + rewrite timeout_next_eq. cbn [snd]. split; [done|]. intros _. by left.
    + cbn [snd]. split; [intros []|lia].
  - intros E. destruct (Z.ltb_spec (lastActivity w + t) (nowInSeconds now));
      [lia|done].
  - unfold nowInSeconds. pose proof (Z.div_mod now 1000).
    pose proof (Z.mod_pos_bound now 1000). lia.
Qed.

Lemma tick_timeout_strict_witness :
  (In TimeoutSignal (tick 2100 1 idle_state).2 <->
   lastActivity idle_state + 2 < nowInSeconds 2100) /\
  (nowInSeconds 2100 = lastActivity idle_state + 2 ->
   (tick 2100 1 idle_state).2 = []) /\
  1000 * nowInSeconds 2100 <= 2100 < 1000 * nowInSeconds 2100 + 1000.
Proof.
  eapply (tick_timeout_strict idle_state 2100 1); reflexivity.
Defined.

(** ** The activity feed *)

Lemma idle_live_spec w :
  idle_live w = true <->
  exists h s, idleSubscription w = Some h /\ heap w !! h = Some s /\
              closed s = false.
Proof.
  unfold idle_live. split.
  - destruct (idleSubscription w) as [h|]; [|done].
    destruct (heap w !! h) as [s|] eqn:E; [|done].
    intros H. exists h, s. by destruct (closed s).
  - intros (h & s & -> & -> & ->). done.
Qed.

(** The two subscriptions [startWatching] creates, in any state. *)
Lemma startWatching_subscribes now w :
  let ws := (install_default (stopWatching w).1).1 in
  let w1 := (startWatching now w).1 in
  activityEvents w1 = Some (default DEFAULT_ACTIVITY_EVENTS (activityEvents w)) /\
  activitySubscription w1 = Some (length (heap w)) /\
  idleSubscription w1 = Some (S (length (heap w))) /\
  heap w1 !! length (heap w) = Some (new_subscription ActivityPipe now ws) /\
  heap w1 !! S (length (heap w)) = Some (new_subscription IdlePipe now ws) /\
  isIdleDetected w1 = isIdleDetected (stopWatching w).1.
Proof.
  cbv zeta. rewrite startWatching_eq. cbn [fst].
  destruct (install_default_rest (stopWatching w).1) as (Eh & Ef & _).
  pose proof (install_default_feed (stopWatching w).1) as Ea.
  destruct (stopWatching_static w) as (_ & _ & Ea' & _).
  rewrite Ea' in Ea. pose proof (stopWatching_length w) as El.
  unfold subscribeIdle, subscribeActivity. simpl. rewrite Eh, <- El.
  split; [exact Ea|]. split; [done|].
  split; [rewrite length_app; simpl; f_equal; lia|].
  split; [|split; [|exact Ef]].
  - rewrite lookup_app_l by (rewrite length_app; simpl; lia).
    by apply list_lookup_middle.
  - apply list_lookup_middle. rewrite length_app. simpl. lia.
Qed.

(** C3: while the idle-detection subscription exists and is not closed (the
    guard [idle_live]), [setCustomActivityEvents] logs an error and changes
    nothing; otherwise it replaces the activity feed and nothing else, and
    the feed it installed is the one both pipelines of the next
    [startWatching()] are built on and the one a countdown started from
    there listens to. *)
Theorem setCustomActivityEvents_guarded (w : UserIdleService) (src : Source) :
  (idle_live w = true <->
   exists h s, idleSubscription w = Some h /\ heap w !! h = Some s /\
               closed s = false) /\
  (idle_live w = true ->
   setCustomActivityEvents src w = (w, [ConsoleError console_message])) /\
  (idle_live w = false ->
   setCustomActivityEvents src w = (set_activityEvents (Some src) w, []) /\
   forall now,
     let w1 := (startWatching now (set_activityEvents (Some src) w)).1 in
     activityEvents w1 = Some src /\
     (exists hA sA,
        activitySubscription w1 = Some hA /\ heap w1 !! hA = Some sA /\
        closed sA = false /\ pipeline sA = ActivityPipe /\ feed sA = src) /\
     (exists hI sI,
        idleSubscription w1 = Some hI /\ heap w1 !! hI = Some sI /\
        closed sI = false /\ pipeline sI = IdlePipe /\ feed sI = src /\
        forall now', passes w1 (buffer sI) = true ->
          exists sI',
            heap (flush now' hI w1).1 !! hI = Some sI' /\
            inner sI' =
              Some {| notifier := Some src; tickAt := now' + 1000 |})).
Proof.
  split; [apply idle_live_spec|].
  unfold setCustomActivityEvents, emit. split; intros ->; [done|].
  split; [done|]. intros now.
  destruct (startWatching_subscribes now (set_activityEvents (Some src) w))
    as (Ea & EA & EI & LA & LI & _).
  cbv zeta. split; [exact Ea|]. split.
  - do 2 eexists. split; [exact EA|]. split; [exact LA|].
    repeat split. unfold new_subscription. cbn [feed].
    rewrite install_default_feed.
    by destruct (stopWatching_static (set_activityEvents (Some src) w))
      as (_ & _ & -> & _).
  - do 2 eexists. split; [exact EI|]. split; [exact LI|].
    assert (Ef : feed (new_subscription IdlePipe now
                   (install_default
                      (stopWatching (set_activityEvents (Some src) w)).1).1)
                 = src).
    { unfold new_subscription. cbn [feed]. rewrite install_default_feed.
      by destruct (stopWatching_static (set_activityEvents (Some src) w))
        as (_ & _ & -> & _). }
    repeat split; [exact Ef|].
    intros now' Hp. eexists.
    rewrite (flush_idle_passes now' _ _ _ LI) by done. cbn [fst heap set_heap].
    split.
    + apply list_lookup_insert_eq. by eapply lookup_lt_Some.
    + cbn [inner set_inner]. by rewrite Ea.
Qed.

Lemma setCustomActivityEvents_guarded_witness :
  setCustomActivityEvents 7%nat idle_state =
    (idle_state, [ConsoleError console_message]) /\
  setCustomActivityEvents 7%nat (stopWatching idle_state).1 =
    (set_activityEvents (Some 7%nat) (stopWatching idle_state).1, []).
Proof.
  split.
  - apply (proj1 (proj2 (setCustomActivityEvents_guarded idle_state 7%nat))).
    reflexivity.
  - apply (proj2 (proj2 (setCustomActivityEvents_guarded
                           (stopWatching idle_state).1 7%nat))).
    reflexivity.
Defined.

(** ** Consequences of the session invariant *)

Lemma stopped_no_countdown w h : stopped w -> ~ countdown_live w h.
Proof.
  intros [Hall _] (s & cd & Hl & Hin).
  destruct (proj1 (Forall_lookup _ _) Hall h s Hl) as [_ Hn]. congruence.
Qed.

Lemma watching_countdown w hA hI sA sI h :
  watching w hA hI sA sI -> countdown_live w h ->
  h = hI /\ counting sI = true.
Proof.
  intros [] (s & cd & Hl & Hin).
  destruct (decide (h = hI)) as [->|HnI].
  - split; [done|]. unfold counting. assert (s = sI) as -> by congruence.
    by rewrite Hin.
  - destruct (decide (h = hA)) as [->|HnA]; [congruence|].
    destruct (w_rest0 h s Hl HnA HnI) as [_ Hn]. congruence.
Qed.

Lemma watching_open w hA hI sA sI h :
  watching w hA hI sA sI -> subscription_open w h -> h = hA \/ h = hI.
Proof.
  intros [] (s & Hl & Hc).
  destruct (decide (h = hA)) as [->|HnA]; [by left|].
  destruct (decide (h = hI)) as [->|HnI]; [by right|].
  destruct (w_rest0 h s Hl HnA HnI) as [Hc' _]. congruence.
Qed.

Lemma Inv_open w h :
  Inv w -> subscription_open w h ->
  exists hA hI sA sI, watching w hA hI sA sI /\ (h = hA \/ h = hI).
Proof.
  intros [_ [[Hall _]|(hA & hI & sA & sI & W)]] Ho.
  - destruct Ho as (s & Hl & Hc).
    destruct (proj1 (Forall_lookup _ _) Hall h s Hl) as [Hc' _]. congruence.
  - exists hA, hI, sA, sI. split; [done|]. by eapply watching_open.
Qed.

Lemma truthy_spec b : truthy b = true <-> b = Some true.
Proof. destruct b as [[]|]; simpl; split; congruence. Qed.

Lemma Inv_flag w :
  Inv w -> (isIdleDetected w = Some true <-> exists h, countdown_live w h).
Proof.
  intros [_ [S|(hA & hI & sA & sI & W)]]; rewrite <- truthy_spec.
  - destruct S as [? Hf]. rewrite Hf. split; [done|].
    intros [h Hh]. by eapply stopped_no_countdown in Hh.
  - pose proof W as []. rewrite w_flag0. unfold counting. split.
    + destruct (inner sI) as [cd|] eqn:E; [|done]. intros _.
      by exists hI, sI, cd.
    + intros [h Hh]. by destruct (watching_countdown _ _ _ _ _ _ W Hh).
Qed.

Lemma Inv_countdown_unique w h1 h2 :
  Inv w -> countdown_live w h1 -> countdown_live w h2 -> h1 = h2.
Proof.
  intros [_ [S|(hA & hI & sA & sI & W)]] H1 H2.
  - by eapply stopped_no_countdown in H1.
  - destruct (watching_countdown _ _ _ _ _ _ W H1) as [-> _].
    by destruct (watching_countdown _ _ _ _ _ _ W H2) as [-> _].
Qed.

(** ** Entering and leaving the idle state *)

(** C4: in a watching session, an empty window of the idle pipeline while
    [isIdleDetected] is not set sets it, emits [true] on the idle-status
    stream and starts the countdown, first tick one second later; an empty
    window while [isIdleDetected] is already [true] emits nothing and leaves
    the countdown as it is. *)
Theorem empty_window_starts_countdown (w : UserIdleService) (now : Z)
    (hI : nat) (s : Subscription) :
  reachable w -> idleSubscription w = Some hI -> heap w !! hI = Some s ->
  closed s = false -> buffer s = [] ->
  let r := flush now hI w in
  (isIdleDetected w <> Some true ->
   isIdleDetected r.1 = Some true /\ r.2 = [IdleStatusChanged true] /\
   exists s', heap r.1 !! hI = Some s' /\
     inner s' = Some {| notifier := activityEvents w; tickAt := now + 1000 |}) /\
  (isIdleDetected w = Some true ->
   isIdleDetected r.1 = Some true /\ r.2 = [] /\
   exists s', heap r.1 !! hI = Some s' /\ inner s' = inner s).
Proof.
  intros Hr Ei Hl Hc Hb. apply reachable_Inv in Hr.
  destruct (Inv_open w hI Hr) as (hA & hI' & sA & sI & W & _).
  { by exists s. }
  pose proof W as []. assert (hI' = hI) as -> by congruence.
  assert (sI = s) as -> by congruence.
  assert (Hlt : (hI < length (heap w))%nat) by by eapply lookup_lt_Some.
  cbv zeta. split.
  - intros Hf.
    assert (Hp : passes w (buffer s) = true).
    { unfold passes. rewrite Hb. simpl.
      destruct (truthy (isIdleDetected w)) eqn:T; [|done].
      by apply truthy_spec in T. }
    pose proof (watching_passes _ _ _ _ _ W Hp) as Hin.
    rewrite (flush_idle_passes now hI w s) by done.
    unfold counting. rewrite Hin. simpl. repeat split.
    eexists. split; [by apply list_lookup_insert_eq|done].
  - intros Hf.
    assert (Hp : passes w (buffer s) = false).
    { unfold passes. by rewrite Hb, Hf. }
    rewrite (flush_idle_blocked now hI w s) by done. simpl. repeat split; [done|].
    eexists. split; [by apply list_lookup_insert_eq|done].
Qed.

Lemma empty_window_starts_countdown_witness :
  (isIdleDetected watching_state <> Some true ->
   isIdleDetected (flush 100 1 watching_state).1 = Some true /\
   (flush 100 1 watching_state).2 = [IdleStatusChanged true] /\
   exists s', heap (flush 100 1 watching_state).1 !! 1%nat = Some s' /\
     inner s' = Some {| notifier := activityEvents watching_state;
                        tickAt := 100 + 1000 |}) /\
  (isIdleDetected watching_state = Some true ->
   isIdleDetected (flush 100 1 watching_state).1 = Some true /\
   (flush 100 1 watching_state).2 = [] /\
   exists s', heap (flush 100 1 watching_state).1 !! 1%nat = Some s' /\
     inner s' = None).
Proof.
  exact (empty_window_starts_countdown watching_state 100 1
           {| pipeline := IdlePipe; closed := false; feed := 0%nat;
              buffer := []; flushAt := 100; period := 100; inner := None |}
           reachable_watching_state eq_refl eq_refl eq_refl eq_refl).
Defined.

Lemma tick_delivery_stops now h w id :
  Inv w -> In (OnTimeoutNext id) (tick now h w).2 ->
  forall h', ~ countdown_live (tick now h w).1 h'.
Proof.
  intros [_ [S|(hA & hI & sA & sI & W)]] Hin.
  { by rewrite stopped_tick in Hin. }
  destruct (decide (h = hI)) as [->|HnI].
  2:{ by rewrite (watching_tick_other now h _ _ _ _ _ W) in Hin. }
  destruct (inner sI) as [cd|] eqn:E.
  2:{ destruct W. by rewrite (tick_no_countdown now hI w sI) in Hin. }
  destruct (watching_tick_idle now _ _ _ _ _ cd W E) as [Et W1].
  rewrite Et in *. destruct (timed_out now w); [|done].
  rewrite (watching_timeout_next _ _ _ _ _ W1) in *.
  change (timeoutObservers (set_heap
            (<[hI:=set_inner (Some (next_tick cd)) sI]> (heap w)) w))
    with (timeoutObservers w) in *.
  destruct (timeoutObservers w) as [|id0 ids].
  - by destruct Hin as [|[]].
  - cbn [fst]. intros h'. apply stopped_no_countdown.
    by eapply watching_stopWatching_stopped.
Qed.

Lemma stopWatching_delivers_nothing w id :
  Inv w -> ~ In (OnTimeoutNext id) (stopWatching w).2.
Proof.
  intros [_ [S|(hA & hI & sA & sI & W)]].
  - rewrite stopped_stopWatching by done. by intros [].
  - rewrite (watching_stopWatching _ _ _ _ _ W).
    destruct (counting sI); simpl; [|tauto]. by intros [|[]].
Qed.

Lemma step_delivery_stops now e w id :
  Inv w -> In (OnTimeoutNext id) (step now e w).2 ->
  forall h', ~ countdown_live (step now e w).1 h'.
Proof.
  intros HI Hin. destruct e; simpl in Hin.
  - rewrite startWatching_eq in Hin. by apply stopWatching_delivers_nothing in Hin.
  - by apply stopWatching_delivers_nothing in Hin.
  - unfold setCustomActivityEvents, emit in Hin.
    destruct (idle_live w); [by destruct Hin as [|[]]|done].
  - done.
  - done.
  - destruct HI as [_ [S|(hA & hI & sA & sI & W)]].
    + by rewrite stopped_activity in Hin.
    + rewrite (watching_activity src p _ _ _ _ _ W) in Hin.
      destruct (listens src sI); [by destruct Hin as [|[]]|done].
  - destruct HI as [_ [S|(hA & hI & sA & sI & W)]].
    + by rewrite stopped_flush in Hin.
    + destruct (decide (h = hA)) as [->|HnA].
      { destruct (watching_flush_activity now _ _ _ _ _ W) as [E _].
        by rewrite E in Hin. }
      destruct (decide (h = hI)) as [->|HnI].
      2:{ by rewrite (watching_flush_other now h _ _ _ _ _ W) in Hin. }
      destruct (passes w (buffer sI)) eqn:Hp.
      * destruct (watching_flush_idle_passes now _ _ _ _ _ W Hp) as [E _].
        rewrite E in Hin. by destruct Hin as [|[]].
      * destruct (watching_flush_idle_blocked now _ _ _ _ _ W Hp) as [E _].
        by rewrite E in Hin.
  - by apply (tick_delivery_stops now h w id).
Qed.

Lemma keeps_countdown_delivers_nothing evs : forall w id,
  Inv w -> keeps_countdown w evs -> ~ In (OnTimeoutNext id) (run evs w).2.
Proof.
  induction evs as [|[now e] evs IH]; intros w id HI Hk; [by intros []|].
  destruct Hk as [[h Hh] Hk]. rewrite run_cons. cbn [snd].
  intros [Hin|Hin]%in_app_or.
  - by apply (step_delivery_stops now e w id HI Hin h).
  - apply (IH _ id (step_Inv now e w HI) Hk Hin).
Qed.

(** C5, as the code has it: while a countdown is live, a single raw event of
    the activity feed cancels it at once, without waiting for a window:
    [isIdleDetected] becomes [false], [false] is emitted on the idle-status
    stream and nothing else, in particular no timeout, and no countdown is
    left.  No timeout has been delivered to a subscriber of [onTimeout()]
    by a countdown that is still live: a step that delivers one leaves no
    countdown live, so a run that keeps a countdown live delivers none.  The
    internal signal [timeout$.next(true)] is another matter: with no
    subscriber the countdown may have emitted it on earlier ticks. *)
Theorem activity_cancels_countdown (w : UserIdleService) (src : Source)
    (p : Payload) (h : nat) :
  reachable w -> countdown_live w h -> activityEvents w = Some src ->
  let r := activity src p w in
  r.2 = [IdleStatusChanged false] /\ isIdleDetected r.1 = Some false /\
  (forall h', ~ countdown_live r.1 h') /\
  (forall now e id, In (OnTimeoutNext id) (step now e w).2 ->
     forall h', ~ countdown_live (step now e w).1 h') /\
  (forall w0 evs id, reachable w0 -> keeps_countdown w0 evs ->
     ~ In (OnTimeoutNext id) (run evs w0).2).
Proof.
  intros Hr Hcd Ea. pose proof (reachable_Inv _ Hr) as HI.
  assert (HI' : Inv (step 0 (Activity src p) w).1) by by apply step_Inv.
  simpl in HI'. pose proof HI as [_ [S|(hA & hI & sA & sI & W)]].
  { by eapply stopped_no_countdown in Hcd. }
  destruct (watching_countdown _ _ _ _ _ _ W Hcd) as [-> C].
  pose proof W as [].
  assert (L : listens src sI = true).
  { unfold listens. rewrite w_openI0. simpl. unfold counting in C.
    destruct (inner sI) as [cd|] eqn:E; [|done].
    apply bool_decide_eq_true. rewrite (w_notifier0 cd eq_refl). congruence. }
  cbv zeta. pose proof (Inv_flag _ HI') as Hfl.
  split; [|split; [|split; [|split]]].
  - by rewrite (watching_activity src p _ _ _ _ _ W), L.
  - by rewrite (watching_activity src p _ _ _ _ _ W), L.
  - intros h' Hh'.
    assert (E : isIdleDetected (activity src p w).1 = Some true)
      by (apply Hfl; by exists h').
    rewrite (watching_activity src p _ _ _ _ _ W), L in E. done.
  - intros now e id. by apply step_delivery_stops.
  - intros w0 evs id Hr0. apply keeps_countdown_delivers_nothing.
    by apply reachable_Inv.
Qed.

Lemma activity_cancels_countdown_witness :
  (activity 0%nat 42%nat idle_state).2 = [IdleStatusChanged false] /\
  isIdleDetected (activity 0%nat 42%nat idle_state).1 = Some false /\
  (forall h', ~ countdown_live (activity 0%nat 42%nat idle_state).1 h') /\
  (forall h', ~ countdown_live (step 3100 (Tick 1%nat) idle_state).1 h') /\
  ~ In (OnTimeoutNext 0) (run [(1100, Tick 1%nat)] idle_state).2.
Proof.
  pose proof (activity_cancels_countdown idle_state 0%nat 42%nat 1%nat) as H.
  cbv zeta in H. destruct H as (H1 & H2 & H3 & H4 & H5).
  - apply reachable_idle_state.
  - eexists _, _. split; reflexivity.
  - reflexivity.
  - split; [exact H1|]. split; [exact H2|]. split; [exact H3|]. split.
    + apply (H4 3100 (Tick 1%nat) 0%nat). vm_compute. tauto.
    + apply (H5 idle_state [(1100, Tick 1%nat)] 0%nat).
      * apply reachable_idle_state.
      * split; [|exact I]. exists 1%nat. eexists _, _. split; reflexivity.
Defined.

(** C5 as stated fails.  With no subscriber of [onTimeout()], the countdown
    started by the first empty window ticks at 3100 and 4100 ms while
    [0 + 2 < 3] and [0 + 2 < 4]: it emits the timeout signal twice and stays
    live; the raw event that arrives then cancels a countdown that has
    produced timeout emissions. *)
Lemma cancelled_countdown_had_signalled_timeout :
  let r := run [(3100, Tick 1%nat); (4100, Tick 1%nat)]
             unobserved_idle_state in
  r.2 = [TimeoutSignal; TimeoutSignal] /\
  countdown_live r.1 1%nat /\
  activityEvents r.1 = Some 0%nat /\
  (activity 0%nat 42%nat r.1).2 = [IdleStatusChanged false] /\
  forall h, ~ countdown_live (activity 0%nat 42%nat r.1).1 h.
Proof.
  cbv zeta. split; [reflexivity|]. split.
  { eexists _, _. split; reflexivity. }
  split; [reflexivity|]. split; [reflexivity|].
  intros h (s & cd & Hl & Hin). revert Hl Hin. vm_compute.
  destruct h as [|[|h]]; intros [= <-]; discriminate.
Qed.

(** ** One countdown, in lock-step with the flag *)

(** C6: in every reachable state at most one countdown is live, and
    [isIdleDetected] is [true] exactly when a countdown is live; and whenever
    a window starts a countdown, [switchMap] first tears down the countdown
    the subscription held (running its cleanup), so that the subscription
    holds the new countdown only. *)
Theorem countdown_lock_step (w : UserIdleService) :
  reachable w ->
  (forall h1 h2, countdown_live w h1 -> countdown_live w h2 -> h1 = h2) /\
  (isIdleDetected w = Some true <-> exists h, countdown_live w h) /\
  (forall w0 now h s,
     heap w0 !! h = Some s -> closed s = false -> pipeline s = IdlePipe ->
     passes w0 (buffer s) = true ->
     let r := flush now h w0 in
     r.2 = IdleStatusChanged true ::
           (if counting s then [IdleStatusChanged false] else []) /\
     exists s', heap r.1 !! h = Some s' /\
       inner s' =
         Some {| notifier := activityEvents w0; tickAt := now + 1000 |}).
Proof.
  intros Hr. apply reachable_Inv in Hr. split; [|split].
  - intros h1 h2. by apply Inv_countdown_unique.
  - by apply Inv_flag.
  - intros w0 now h s Hl Hc Hp Hpass. cbv zeta.
    rewrite (flush_idle_passes now h w0 s) by done. simpl. split; [done|].
    eexists. split; [apply list_lookup_insert_eq; by eapply lookup_lt_Some|].
    done.
Qed.

Lemma countdown_lock_step_witness :
  (forall h1 h2, countdown_live idle_state h1 -> countdown_live idle_state h2 ->
                 h1 = h2) /\
  (isIdleDetected idle_state = Some true <->
   exists h, countdown_live idle_state h).
Proof.
  pose proof (countdown_lock_step idle_state reachable_idle_state)
    as (H1 & H2 & _).
  by split.
Defined.

(** ** Restarting *)

Lemma new_subscription_ext p now w w' :
  config w' = config w -> activityEvents w' = activityEvents w ->
  new_subscription p now w' = new_subscription p now w.
Proof. unfold new_subscription. by intros -> ->. Qed.

(** C7: [startWatching()] first stops the session in progress, then installs
    the default activity feed if none is set, then creates the two
    subscriptions, which are then the only open ones; called again (at any
    later time) it emits nothing, leaves the fields of the service as they
    are, and replaces the two subscriptions by two fresh ones that differ
    from them in the start of the first window only, again the only open
    ones. *)
Theorem startWatching_restarts (w : UserIdleService) (now now2 : Z) :
  reachable w ->
  let r := startWatching now w in
  let hA := length (heap w) in
  let hI := S (length (heap w)) in
  let r2 := startWatching now2 r.1 in
  r.2 = (stopWatching w).2 /\ stopped (stopWatching w).1 /\
  activityEvents r.1 =
    Some (default DEFAULT_ACTIVITY_EVENTS (activityEvents w)) /\
  (forall h, subscription_open r.1 h -> h = hA \/ h = hI) /\
  (forall h, subscription_open r2.1 h -> h = S hI \/ h = S (S hI)) /\
  r2.2 = [] /\
  config r2.1 = config r.1 /\ lastActivity r2.1 = lastActivity r.1 /\
  activityEvents r2.1 = activityEvents r.1 /\
  isIdleDetected r2.1 = isIdleDetected r.1 /\
  timeoutObservers r2.1 = timeoutObservers r.1 /\
  exists ws,
    watching r.1 hA hI
      (new_subscription ActivityPipe now ws)
      (new_subscription IdlePipe now ws) /\
    watching r2.1 (S hI) (S (S hI))
      (new_subscription ActivityPipe now2 ws)
      (new_subscription IdlePipe now2 ws).
Proof.
  intros Hr. pose proof (reachable_Inv _ Hr) as HI. cbv zeta.
  pose proof (Inv_startWatching now w HI) as W1.
  assert (HI1 : Inv (startWatching now w).1)
    by by apply (step_Inv now StartWatching).
  pose proof (Inv_startWatching now2 _ HI1) as W2.
  destruct (startWatching_subscribes now w) as (Ea & _ & _ & _ & _ & _).
  destruct (startWatching_subscribes now2 (startWatching now w).1)
    as (Ea2 & _ & _ & _ & _ & Ef2).
  assert (El : length (heap (startWatching now w).1) = S (S (length (heap w)))).
  { rewrite startWatching_eq. unfold subscribeIdle, subscribeActivity. simpl.
    destruct (install_default_rest (stopWatching w).1) as (-> & _).
    rewrite !length_app, stopWatching_length. simpl. lia. }
  rewrite El in W2.
  assert (Eout : (stopWatching (startWatching now w).1).2 = [] /\
                 isIdleDetected (stopWatching (startWatching now w).1).1 =
                 isIdleDetected (startWatching now w).1).
  { rewrite (watching_stopWatching _ _ _ _ _ W1). by simpl. }
  destruct Eout as [Eo Efl].
  destruct (startWatching_frame now2 (startWatching now w).1)
    as ((Ec & Eobs & _) & Ela).
  split; [by rewrite startWatching_eq|].
  split; [by apply Inv_stopWatching|].
  split; [exact Ea|].
  split; [intros h; by eapply watching_open|].
  split; [intros h; by eapply watching_open|].
  split; [by rewrite startWatching_eq|].
  split; [exact Ec|]. split; [exact Ela|].
  split; [by rewrite Ea2, Ea|].
  split; [by rewrite Ef2|]. split; [exact Eobs|].
  eexists. split; [exact W1|].
  assert (Ecfg : config (install_default
                   (stopWatching (startWatching now w).1).1).1 =
                 config (install_default (stopWatching w).1).1).
  { destruct (install_default_rest (stopWatching (startWatching now w).1).1)
      as (_ & _ & -> & _).
    destruct (install_default_rest (stopWatching w).1) as (_ & _ & -> & _).
    destruct (stopWatching_static (startWatching now w).1) as (-> & _).
    destruct (stopWatching_static w) as (-> & _).
    by destruct (startWatching_frame now w) as ((-> & _) & _). }
  assert (Eact : activityEvents (install_default
                   (stopWatching (startWatching now w).1).1).1 =
                 activityEvents (install_default (stopWatching w).1).1).
  { rewrite !install_default_feed.
    destruct (stopWatching_static (startWatching now w).1) as (_ & _ & -> & _).
    destruct (stopWatching_static w) as (_ & _ & -> & _).
    by rewrite Ea. }
  rewrite !(new_subscription_ext _ now2 _ _ Ecfg Eact) in W2. exact W2.
Qed.

Lemma startWatching_restarts_witness :
  (startWatching 5000 idle_state).2 = (stopWatching idle_state).2 /\
  (startWatching 6000 (startWatching 5000 idle_state).1).2 = [] /\
  forall h, subscription_open (startWatching 5000 idle_state).1 h ->
            h = 2%nat \/ h = 3%nat.
Proof.
  pose proof (startWatching_restarts idle_state 5000 6000
                reachable_idle_state) as H.
  cbv zeta in H. destruct H as (H1 & _ & _ & H2 & _ & H3 & _).
  split; [exact H1|]. split; [exact H3|exact H2].
Defined.

(** ** A timeout nobody listens to *)

Lemma Inv_idle_phase w hI :
  Inv w -> quiet w -> countdown_live w hI -> in_phase hI w IDLE.
Proof.
  intros [_ [S|(hA & hI' & sA & sI & W)]] Q Hcd.
  - by eapply stopped_no_countdown in Hcd.
  - destruct (watching_countdown _ _ _ _ _ _ W Hcd) as [-> C].
    split; [done|]. by exists hA, sA, sI.
Qed.

Lemma watching_live_at w hA hI sA sI :
  watching w hA hI sA sI -> live_at w (activitySubscription w) = true.
Proof. intros []. unfold live_at. by rewrite w_activity0, w_lookA0, w_openA0. Qed.

(** C10: [stopWatching()] is called from the pipeline [onTimeout()] returns
    and from nowhere else in the countdown; so when the timeout condition
    holds while [onTimeout()] has no subscriber, then through any later
    timer events (no activity, no API call) both subscriptions stay open, the
    countdown stays live, and every tick of the countdown emits the internal
    timeout signal again, and nothing else is emitted. *)
Theorem unobserved_timeout_repeats (w : UserIdleService) (hI : nat) (t now0 : Z)
    (evs : list (Z * Event)) :
  reachable w -> countdown_live w hI -> quiet w ->
  timeoutObservers w = [] -> timeout (config w) = Some t ->
  lastActivity w + t < nowInSeconds now0 ->
  Forall (fun te => timer_event te.2 /\ now0 <= te.1) evs ->
  let r := run evs w in
  r.2 = repeated_signals hI evs /\
  idle_live r.1 = true /\ live_at r.1 (activitySubscription r.1) = true /\
  countdown_live r.1 hI /\ isIdleDetected r.1 = Some true.
Proof.
  intros Hr Hcd Q Hobs Ht Hc Hall. cbv zeta.
  pose proof (reachable_Inv _ Hr) as HI.
  pose proof (Inv_idle_phase w hI HI Q Hcd) as Hph.
  assert (H1 : Forall (fun te : Z * Event => timer_event te.2) evs).
  { eapply Forall_impl; [exact Hall|]. by intros te [? _]. }
  assert (H2 : Forall (fun te : Z * Event => now0 <= te.1) evs).
  { eapply Forall_impl; [exact Hall|]. by intros te [_ ?]. }
  destruct (silent_run_refines hI evs w IDLE t Hph Ht H1) as (Eo & Hph' & _).
  rewrite Hobs, (machine_run_unobserved hI _ t now0 evs Hc H2) in Eo, Hph'.
  cbn [fst snd] in *. destruct Hph' as (_ & hA & sA & sI & W & C).
  split; [exact Eo|]. split; [by eapply watching_idle_live|].
  split; [by eapply watching_live_at|].
  pose proof W as []. unfold counting in C.
  destruct (inner sI) as [cd|] eqn:E; [|done].
  split; [by exists sI, cd|].
  apply truthy_spec. rewrite w_flag0. unfold counting. by rewrite E.
Qed.

Lemma reachable_unobserved_idle_state : reachable unobserved_idle_state.
Proof. apply reachable_run, reachable_init. Qed.

Lemma unobserved_timeout_repeats_witness :
  let evs := [(3100, Tick 1%nat); (3100, Flush 0%nat); (3100, Flush 1%nat);
              (4100, Tick 1%nat); (5100, Tick 1%nat)] in
  (run evs unobserved_idle_state).2 =
    [TimeoutSignal; TimeoutSignal; TimeoutSignal] /\
  idle_live (run evs unobserved_idle_state).1 = true.
Proof.
  cbv zeta.
  pose proof (unobserved_timeout_repeats unobserved_idle_state 1%nat 2 3100
    [(3100, Tick 1%nat); (3100, Flush 0%nat); (3100, Flush 1%nat);
     (4100, Tick 1%nat); (5100, Tick 1%nat)]) as H.
  cbv zeta in H. destruct H as (H1 & H2 & _).
  - apply reachable_unobserved_idle_state.
  - eexists _, _. split; reflexivity.
  - repeat constructor.
  - reflexivity.
  - reflexivity.
  - reflexivity.
  - repeat constructor; simpl; lia.
  - split; [exact H1|exact H2].
Defined.

(** ** The timeout *)

Lemma shut_quiet (l : list Subscription) :
  Forall shut l -> Forall (fun s => closed s = false -> buffer s = []) l.
Proof.
  intros H. eapply Forall_impl; [exact H|]. intros s [Hc _]. congruence.
Qed.

Lemma startWatching_quiet now w : Inv w -> quiet (startWatching now w).1.
Proof.
  intros HI. pose proof (Inv_stopWatching w HI) as [Hall _].
  unfold quiet. rewrite startWatching_eq.
  unfold subscribeIdle, subscribeActivity. simpl.
  destruct (install_default_rest (stopWatching w).1) as (-> & _).
  repeat apply Forall_app_2; try by apply shut_quiet.
  - by repeat constructor.
  - by repeat constructor.
Qed.

Lemma startWatching_active now w :
  Inv w -> in_phase (S (length (heap w))) (startWatching now w).1 ACTIVE.
Proof.
  intros HI. split; [by apply startWatching_quiet|].
  do 3 eexists. split; [by apply Inv_startWatching|done].
Qed.

Lemma count_occ_onTimeout_absent id (obs : list nat) :
  ~ In id obs ->
  count_occ Out_eq_dec (OnTimeoutNext <$> obs) (OnTimeoutNext id) = 0%nat.
Proof.
  induction obs as [|x obs IH]; [done|]. intros Hn.
  rewrite fmap_cons, count_occ_cons_neq.
  - apply IH. intros H. apply Hn. by right.
  - intros [= ->]. apply Hn. by left.
Qed.

Lemma count_occ_onTimeout id (obs : list nat) :
  NoDup obs -> In id obs ->
  count_occ Out_eq_dec (OnTimeoutNext <$> obs) (OnTimeoutNext id) = 1%nat.
Proof.
  induction 1 as [|x obs Hx Hnd IH]; [done|]. intros [->|Hin].
  - rewrite fmap_cons, count_occ_cons_eq by done.
    rewrite count_occ_onTimeout_absent; [done|].
    by rewrite <- list_elem_of_In.
  - rewrite fmap_cons, count_occ_cons_neq; [by apply IH|].
    intros [= ->]. apply Hx. by apply list_elem_of_In.
Qed.

(** *** Subscribing to [onTimeout()] after [startWatching()] *)

Lemma in_phase_ext hI w w' ph :
  heap w' = heap w -> isIdleDetected w' = isIdleDetected w ->
  activityEvents w' = activityEvents w ->
  idleSubscription w' = idleSubscription w ->
  activitySubscription w' = activitySubscription w ->
  in_phase hI w ph -> in_phase hI w' ph.
Proof.
  intros E1 E2 E3 E4 E5. destruct ph; simpl.
  - intros (Q & hA & sA & sI & W & C). split; [unfold quiet; by rewrite E1|].
    exists hA, sA, sI. split; [by apply (watching_ext w)|done].
  - intros (Q & hA & sA & sI & W & C). split; [unfold quiet; by rewrite E1|].
    exists hA, sA, sI. split; [by apply (watching_ext w)|done].
  - by apply stopped_ext.
Qed.

Lemma subscribe_run subs : forall w,
  Forall (fun te : Z * Event => te.2 = SubscribeOnTimeout) subs ->
  (run subs w).2 = [] /\ heap (run subs w).1 = heap w /\
  config (run subs w).1 = config w /\
  lastActivity (run subs w).1 = lastActivity w /\
  isIdleDetected (run subs w).1 = isIdleDetected w /\
  activityEvents (run subs w).1 = activityEvents w /\
  idleSubscription (run subs w).1 = idleSubscription w /\
  activitySubscription (run subs w).1 = activitySubscription w.
Proof.
  induction subs as [|[now e] subs IH]; intros w Hall; [done|].
  apply Forall_cons in Hall as [He Hall]. simpl in He. subst e.
  rewrite run_cons. simpl.
  destruct (IH (set_observers (timeoutObservers w ++ [nextObserver w])
                  (S (nextObserver w)) w) Hall)
    as (-> & -> & -> & -> & -> & -> & -> & ->).
  done.
Qed.

(** *** The state machine before the comparison holds *)

Lemma machine_run_idle_early hI last t obs evs :
  Forall (fun te => ~ overdue_tick hI last t te) evs ->
  machine_run hI last t obs IDLE evs = (IDLE, []).
Proof.
  induction 1 as [|[now e] evs He _ IH]; [done|].
  rewrite machine_run_cons. cbv zeta.
  assert (E : machine_step hI last t obs IDLE now e = (IDLE, [])).
  { destruct e; try done. cbn [machine_step]. unfold is_handle.
    case_bool_decide as Hh; [|done]. subst h.
    destruct (Z.ltb_spec (last + t) (nowInSeconds now)) as [Hc|Hc]; [|done].
    destruct He. by split. }
  rewrite E. cbn [fst snd app]. by rewrite IH.
Qed.

Lemma machine_run_active_early hI last t obs evs :
  Forall (fun te => ~ overdue_tick hI last t te) evs ->
  let m := machine_run hI last t obs ACTIVE evs in
  m = (ACTIVE, []) \/ m = (IDLE, [IdleStatusChanged true]).
Proof.
  induction 1 as [|[now e] evs He Hall IH]; [by left|].
  rewrite machine_run_cons. cbv zeta in *.
  destruct e; cbn [machine_step fst snd app];
    try (destruct IH as [-> | ->]; [by left|by right]).
  destruct (is_handle hI h); cbn [fst snd app].
  - right. by rewrite (machine_run_idle_early hI last t obs evs Hall).
  - destruct IH as [-> | ->]; [by left|by right].
Qed.

Lemma reachable_subscribed_state : reachable subscribed_state.
Proof. apply reachable_run, reachable_init. Qed.

(** *** Timers fired when due *)

Lemma concat_imap_nil {A B} (f : nat -> A -> list B) (l : list A) :
  (forall i x, l !! i = Some x -> f i x = []) -> concat (imap f l) = [].
Proof.
  revert f. induction l as [|x l IH]; intros f Hf; [done|].
  rewrite imap_cons. cbn [concat]. rewrite (Hf 0%nat x eq_refl).
  apply IH. intros i y Hi. by apply (Hf (S i)).
Qed.

Lemma concat_imap_two {A B} (f : nat -> A -> list B) (l : list A)
    (a : nat) (xa xb : A) :
  l !! a = Some xa -> l !! S a = Some xb ->
  (forall i x, l !! i = Some x -> i <> a -> i <> S a -> f i x = []) ->
  concat (imap f l) = f a xa ++ f (S a) xb.
Proof.
  revert f a. induction l as [|x l IH]; intros f a Ha Hb Hf; [done|].
  rewrite imap_cons. cbn [concat]. destruct a as [|a].
  - injection Ha as ->. destruct l as [|y l]; [done|]. injection Hb as ->.
    rewrite imap_cons. cbn [concat].
    rewrite (concat_imap_nil _ l), app_nil_r; [done|].
    intros i z Hi. by apply (Hf (S (S i))).
  - rewrite (Hf 0%nat x eq_refl) by done. cbn [app].
    apply (IH (f ∘ S) a Ha Hb). intros i z Hi H1 H2.
    apply (Hf (S i)); [done|lia|lia].
Qed.

Lemma timers_of_shut h s : shut s -> timers_of h s = [].
Proof. unfold timers_of. by intros [-> _]. Qed.

Lemma stopped_timers w : stopped w -> timers w = [].
Proof.
  intros [Hall _]. unfold timers. apply concat_imap_nil. intros i s Hi.
  apply timers_of_shut. by apply (proj1 (Forall_lookup _ _) Hall i s).
Qed.

Lemma run_timers_S fuel tEnd w :
  run_timers (S fuel) tEnd w =
  match earliest (timers w) with
  | Some (t, e) =>
      if t <=? tEnd then (step t e ;> run_timers fuel tEnd) w else (w, [])
  | None => (w, [])
  end.
Proof. done. Qed.

Lemma stopped_run_timers fuel tEnd w :
  stopped w -> run_timers fuel tEnd w = (w, []).
Proof.
  intros S. destruct fuel as [|fuel]; [done|].
  by rewrite run_timers_S, stopped_timers.
Qed.

Lemma ideal_timers hA ms last t obs w A I K :
  ideal hA ms last t obs w A I K ->
  timers w =
  (A, Flush hA) :: (I, Flush (S hA)) ::
  match K with Some k => [(k, Tick (S hA))] | None => [] end.
Proof.
  intros (sA & sI & W & _ & <- & <- & _ & _ & <- & _). destruct W.
  unfold timers.
  rewrite (concat_imap_two timers_of (heap w) hA sA sI) by
    (try done; intros i s Hi H1 H2; apply timers_of_shut; by eapply w_rest0).
  unfold timers_of. rewrite w_openA0, w_openI0, w_innerA0.
  by destruct (inner sI).
Qed.

Lemma ideal_flush_sampler hA ms last t obs w A I K now :
  ideal hA ms last t obs w A I K ->
  (step now (Flush hA) w).2 = [] /\
  ideal hA ms last t obs (step now (Flush hA) w).1 (A + ms) I K.
Proof.
  intros (sA & sI & W & Q & EA & EI & PA & PI & EK & EL & ET & EO).
  pose proof W as []. simpl.
  assert (BA : buffer sA = []) by by eapply quiet_lookup.
  destruct (watching_flush_activity now _ _ _ _ _ W) as [Eo W'].
  split; [exact Eo|]. exists (next_window sA), sI.
  split; [exact W'|].
  rewrite (flush_activity now hA w sA) in * by done. rewrite BA. simpl.
  split; [solve_quiet|]. by rewrite EA, PA.
Qed.

Lemma ideal_flush_blocked hA ms last t obs w A I k now :
  ideal hA ms last t obs w A I (Some k) ->
  (step now (Flush (S hA)) w).2 = [] /\
  ideal hA ms last t obs (step now (Flush (S hA)) w).1 A (I + ms) (Some k).
Proof.
  intros (sA & sI & W & Q & EA & EI & PA & PI & EK & EL & ET & EO).
  pose proof W as []. simpl.
  assert (BI : buffer sI = []) by by eapply quiet_lookup.
  assert (Hp : passes w (buffer sI) = false).
  { unfold passes. rewrite BI, w_flag0. unfold counting.
    by destruct (inner sI). }
  destruct (watching_flush_idle_blocked now _ _ _ _ _ W Hp) as [Eo W'].
  split; [exact Eo|]. exists sA, (next_window sI).
  split; [exact W'|].
  rewrite (flush_idle_blocked now (S hA) w sI) in * by done. simpl.
  split; [solve_quiet|]. by rewrite EI, PI.
Qed.

Lemma ideal_flush_passes hA ms last t obs w A I now :
  ideal hA ms last t obs w A I None ->
  (step now (Flush (S hA)) w).2 = [IdleStatusChanged true] /\
  ideal hA ms last t obs (step now (Flush (S hA)) w).1 A (I + ms)
    (Some (now + 1000)).
Proof.
  intros (sA & sI & W & Q & EA & EI & PA & PI & EK & EL & ET & EO).
  pose proof W as []. simpl.
  assert (BI : buffer sI = []) by by eapply quiet_lookup.
  assert (Hin : inner sI = None) by by destruct (inner sI).
  assert (Hp : passes w (buffer sI) = true).
  { unfold passes. rewrite BI, w_flag0. unfold counting. by rewrite Hin. }
  destruct (watching_flush_idle_passes now _ _ _ _ _ W Hp) as [Eo W'].
  split; [exact Eo|].
  exists sA, (set_inner
                (Some {| notifier := activityEvents w; tickAt := now + 1000 |})
                (next_window sI)).
  split; [exact W'|].
  rewrite (flush_idle_passes now (S hA) w sI) in * by done. simpl.
  split; [solve_quiet|]. by rewrite EI, PI.
Qed.

Lemma ideal_tick_early hA ms last t obs w A I k now :
  ideal hA ms last t obs w A I (Some k) ->
  ~ last + t < nowInSeconds now ->
  (step now (Tick (S hA)) w).2 = [] /\
  ideal hA ms last t obs (step now (Tick (S hA)) w).1 A I (Some (k + 1000)).
Proof.
  intros (sA & sI & W & Q & EA & EI & PA & PI & EK & EL & ET & EO) Hc.
  pose proof W as []. simpl.
  assert (BI : buffer sI = []) by by eapply quiet_lookup.
  destruct (inner sI) as [cd|] eqn:Hin; [|done]. injection EK as <-.
  destruct (watching_tick_idle now _ _ _ _ _ cd W Hin) as [Et W1].
  rewrite Et, (timed_out_eq now w t ET), EL.
  destruct (Z.ltb_spec (last + t) (nowInSeconds now)) as [H|H]; [done|].
  cbn [fst snd]. split; [done|].
  exists sA, (set_inner (Some (next_tick cd)) sI).
  split; [exact W1|]. simpl. split; [solve_quiet|]. done.
Qed.

Lemma ideal_tick_fires hA ms last t obs w A I k now :
  ideal hA ms last t obs w A I (Some k) ->
  obs <> [] -> last + t < nowInSeconds now ->
  (step now (Tick (S hA)) w).2 = timeout_fired obs /\
  stopped (step now (Tick (S hA)) w).1.
Proof.
  intros (sA & sI & W & Q & EA & EI & PA & PI & EK & EL & ET & EO) Hobs Hc.
  pose proof W as []. simpl.
  destruct (inner sI) as [cd|] eqn:Hin; [|done].
  destruct (watching_tick_idle now _ _ _ _ _ cd W Hin) as [Et W1].
  rewrite Et, (timed_out_eq now w t ET), EL.
  apply Z.ltb_lt in Hc. rewrite Hc.
  rewrite (watching_timeout_next _ _ _ _ _ W1).
  set (w1 := set_heap _ w) in *.
  change (timeoutObservers w1) with (timeoutObservers w). rewrite EO.
  destruct obs as [|id ids]; [done|].
  pose proof (watching_stopWatching_stopped _ _ _ _ _ W1) as S.
  rewrite (watching_stopWatching _ _ _ _ _ W1) in *. by simpl in *.
Qed.

Lemma nowInSeconds_add now k : nowInSeconds (now + 1000 * k) = nowInSeconds now + k.
Proof.
  unfold nowInSeconds. rewrite (Z.mul_comm 1000 k). by apply Z.div_add.
Qed.

(** A live countdown, timers fired when due: the timeout is delivered by the
    time [Ks] of any tick of the countdown at which the comparison holds. *)
Lemma ideal_idle_run hA ms last t obs tEnd :
  obs <> [] -> 0 < ms ->
  forall n w A I K j Ks,
    ideal hA ms last t obs w A I (Some K) ->
    Ks = K + 1000 * Z.of_nat j ->
    last + t < nowInSeconds Ks -> Ks <= tEnd ->
    (timers_left A I K Ks <= n)%nat ->
    forall fuel, (n <= fuel)%nat ->
      (run_timers fuel tEnd w).2 = timeout_fired obs /\
      stopped (run_timers fuel tEnd w).1.
Proof.
  intros Hobs Hms. induction n as [|n IH];
    intros w A I K j Ks Hid EKs Hc Hend Hmu fuel Hfuel.
  { unfold timers_left in Hmu. lia. }
  destruct fuel as [|fuel]; [lia|].
  assert (HK : K <= Ks) by lia.
  rewrite run_timers_S, (ideal_timers _ _ _ _ _ _ _ _ _ Hid).
  cbn [earliest fst].
  destruct (Z.ltb_spec K I) as [HKI|HKI]; cbn [fst].
  - destruct (Z.ltb_spec K A) as [HKA|HKA].
    + (* the tick is due first *)
      rewrite (proj2 (Z.leb_le K tEnd)) by lia. rewrite andThen_eq.
      destruct (Z_lt_dec (last + t) (nowInSeconds K)) as [Hf|Hf].
      * destruct (ideal_tick_fires _ _ _ _ _ _ _ _ _ K Hid Hobs Hf) as [Eo S].
        rewrite Eo, (stopped_run_timers fuel tEnd _ S). cbn [fst snd].
        by rewrite app_nil_r.
      * destruct (ideal_tick_early _ _ _ _ _ _ _ _ _ K Hid Hf) as [Eo Hid'].
        rewrite Eo. cbn [app].
        destruct j as [|j].
        { exfalso. apply Hf. replace K with Ks by lia. done. }
        apply (IH _ A I (K + 1000) j Ks Hid'); try done; try lia.
        unfold timers_left in *. lia.
    + (* the sampler's window is due first *)
      rewrite (proj2 (Z.leb_le A tEnd)) by lia. rewrite andThen_eq.
      destruct (ideal_flush_sampler _ _ _ _ _ _ _ _ _ A Hid) as [Eo Hid'].
      rewrite Eo. cbn [app].
      apply (IH _ (A + ms) I K j Ks Hid'); try done; try lia.
      unfold timers_left in *. lia.
  - destruct (Z.ltb_spec I A) as [HIA|HIA].
    + (* the idle window is due first *)
      rewrite (proj2 (Z.leb_le I tEnd)) by lia. rewrite andThen_eq.
      destruct (ideal_flush_blocked _ _ _ _ _ _ _ _ _ I Hid) as [Eo Hid'].
      rewrite Eo. cbn [app].
      apply (IH _ A (I + ms) K j Ks Hid'); try done; try lia.
      unfold timers_left in *. lia.
    + rewrite (proj2 (Z.leb_le A tEnd)) by lia. rewrite andThen_eq.
      destruct (ideal_flush_sampler _ _ _ _ _ _ _ _ _ A Hid) as [Eo Hid'].
      rewrite Eo. cbn [app].
      apply (IH _ (A + ms) I K j Ks Hid'); try done; try lia.
      unfold timers_left in *. lia.
Qed.

(** No countdown yet, timers fired when due: the first window of the idle
    pipeline is empty and starts the countdown, which delivers the timeout
    by its tick number [max t 0 + 1]. *)
Lemma ideal_active_run hA ms last t obs tEnd :
  obs <> [] -> 0 < ms ->
  forall n w A I,
    ideal hA ms last t obs w A I None ->
    last <= nowInSeconds I -> I + 1000 * (Z.max 0 t + 1) <= tEnd ->
    (Z.to_nat (Z.max 0 (I - A + 1)) <= n)%nat ->
    exists n', forall fuel, (n' <= fuel)%nat ->
      (run_timers fuel tEnd w).2 =
        IdleStatusChanged true :: timeout_fired obs /\
      stopped (run_timers fuel tEnd w).1.
Proof.
  intros Hobs Hms. induction n as [|n IH]; intros w A I Hid HL Hend Hmu.
  - (* the idle window is due first *)
    assert (HIA : I < A) by lia.
    destruct (ideal_flush_passes _ _ _ _ _ _ _ _ I Hid) as [Eo Hid'].
    exists (S (timers_left A (I + ms) (I + 1000) (I + 1000 * (Z.max 0 t + 1)))).
    intros fuel Hfuel. destruct fuel as [|fuel]; [lia|].
    rewrite run_timers_S, (ideal_timers _ _ _ _ _ _ _ _ _ Hid).
    cbn [earliest fst].
    rewrite (proj2 (Z.ltb_lt I A)) by done.
    rewrite (proj2 (Z.leb_le I tEnd)) by lia. rewrite andThen_eq, Eo.
    cbn [fst snd app].
    destruct (ideal_idle_run hA ms last t obs tEnd Hobs Hms
                (timers_left A (I + ms) (I + 1000)
                   (I + 1000 * (Z.max 0 t + 1)))
                _ _ _ _ (Z.to_nat t) (I + 1000 * (Z.max 0 t + 1)) Hid')
      with (fuel := fuel) as [E S]; try done; try lia.
    + rewrite nowInSeconds_add. lia.
    + by rewrite E.
  - destruct (Z.ltb_spec I A) as [HIA|HIA].
    + apply (IH w A I Hid HL Hend). lia.
    + destruct (ideal_flush_sampler _ _ _ _ _ _ _ _ _ A Hid) as [Eo Hid'].
      destruct (IH _ (A + ms) I Hid' HL Hend) as [n' Hn']; [lia|].
      exists (S n'). intros fuel Hfuel. destruct fuel as [|fuel]; [lia|].
      rewrite run_timers_S, (ideal_timers _ _ _ _ _ _ _ _ _ Hid).
      cbn [earliest fst].
      rewrite (proj2 (Z.ltb_ge I A)) by done.
      rewrite (proj2 (Z.leb_le A tEnd)) by lia. rewrite andThen_eq, Eo.
      cbn [app]. apply Hn'. lia.
Qed.

(** Timers fired when due up to a time at which the comparison of
    [runTimer] does not hold yet: idleness may be entered, nothing else is
    emitted. *)
Lemma ideal_early_run hA ms last t obs tEnd :
  nowInSeconds tEnd <= last + t ->
  forall fuel w A I K,
    ideal hA ms last t obs w A I K ->
    (run_timers fuel tEnd w).2 = [] \/
    (K = None /\ (run_timers fuel tEnd w).2 = [IdleStatusChanged true]).
Proof.
  intros Hend. induction fuel as [|fuel IH]; intros w A I K Hid; [by left|].
  assert (Hearly : forall d, d <= tEnd -> ~ last + t < nowInSeconds d).
  { intros d Hd. pose proof (nowInSeconds_mono d tEnd Hd). lia. }
  rewrite run_timers_S, (ideal_timers _ _ _ _ _ _ _ _ _ Hid).
  destruct K as [K|].
  - left. cbn [earliest fst].
    destruct (Z.ltb_spec K I) as [HKI|HKI]; cbn [fst].
    + destruct (Z.ltb_spec K A) as [HKA|HKA].
      * destruct (Z.leb_spec K tEnd) as [Hd|Hd]; [|done]. rewrite andThen_eq.
        destruct (ideal_tick_early _ _ _ _ _ _ _ _ _ K Hid (Hearly K Hd))
          as [-> Hid'].
        destruct (IH _ _ _ _ Hid') as [E | [? _]]; [by rewrite E|done].
      * destruct (Z.leb_spec A tEnd) as [Hd|Hd]; [|done]. rewrite andThen_eq.
        destruct (ideal_flush_sampler _ _ _ _ _ _ _ _ _ A Hid) as [-> Hid'].
        destruct (IH _ _ _ _ Hid') as [E | [? _]]; [by rewrite E|done].
    + destruct (Z.ltb_spec I A) as [HIA|HIA].
      * destruct (Z.leb_spec I tEnd) as [Hd|Hd]; [|done]. rewrite andThen_eq.
        destruct (ideal_flush_blocked _ _ _ _ _ _ _ _ _ I Hid) as [-> Hid'].
        destruct (IH _ _ _ _ Hid') as [E | [? _]]; [by rewrite E|done].
      * destruct (Z.leb_spec A tEnd) as [Hd|Hd]; [|done]. rewrite andThen_eq.
        destruct (ideal_flush_sampler _ _ _ _ _ _ _ _ _ A Hid) as [-> Hid'].
        destruct (IH _ _ _ _ Hid') as [E | [? _]]; [by rewrite E|done].
  - cbn [earliest fst]. destruct (Z.ltb_spec I A) as [HIA|HIA].
    + destruct (Z.leb_spec I tEnd) as [Hd|Hd]; [|by left]. rewrite andThen_eq.
      destruct (ideal_flush_passes _ _ _ _ _ _ _ _ I Hid) as [-> Hid'].
      right. split; [done|].
      destruct (IH _ _ _ _ Hid') as [E | [? _]]; [by rewrite E|done].
    + destruct (Z.leb_spec A tEnd) as [Hd|Hd]; [|by left]. rewrite andThen_eq.
      destruct (ideal_flush_sampler _ _ _ _ _ _ _ _ _ A Hid) as [-> Hid'].
      cbn [app]. by apply (IH _ _ _ _ Hid').
Qed.

(** [startWatching()] opens such a session, the first windows due one
    window after the call. *)
Lemma startWatching_ideal now w t ms :
  Inv w -> timeout (config w) = Some t ->
  sensitivityMilliseconds (config w) = Some ms ->
  ideal (length (heap w)) ms (lastActivity w) t (timeoutObservers w)
    (startWatching now w).1 (now + ms) (now + ms) None.
Proof.
  intros HI Ht Hms.
  destruct (startWatching_frame now w) as ((Ec & Eobs & _) & El).
  destruct (stopWatching_static w) as (Ec1 & _).
  destruct (install_default_rest (stopWatching w).1) as (_ & _ & Ec2 & _).
  assert (Ems : default 0
            (sensitivityMilliseconds
               (config (install_default (stopWatching w).1).1)) = ms).
  { by rewrite Ec2, Ec1, Hms. }
  eexists _, _. split; [by apply Inv_startWatching|].
  split; [by apply startWatching_quiet|].
  unfold new_subscription. cbn [flushAt period inner fmap option_fmap option_map].
  rewrite Ems, Ec. done.
Qed.

Lemma subscribe_ideal hA ms last t obs w A I K subs :
  Forall (fun te : Z * Event => te.2 = SubscribeOnTimeout) subs ->
  ideal hA ms last t obs w A I K ->
  ideal hA ms last t (timeoutObservers (run subs w).1) (run subs w).1 A I K.
Proof.
  intros Hsubs (sA & sI & W & Q & H).
  destruct (subscribe_run subs w Hsubs)
    as (_ & Eh & Ec & El & Ei & Ea & Eis & Eas).
  exists sA, sI. split; [by apply (watching_ext w)|].
  split; [unfold quiet; by rewrite Eh|].
  rewrite El, Ec. destruct H as (? & ? & ? & ? & ? & ? & ? & _). done.
Qed.

Lemma timed_out_once_intro obs (r : UserIdleService * list Out) :
  NoDup obs -> r.2 = IdleStatusChanged true :: timeout_fired obs ->
  stopped r.1 -> timed_out_once obs r.
Proof.
  intros Hnd Eo S. split; [exact Eo|]. split; [exact S|]. split.
  - intros id Hin. rewrite Eo. unfold timeout_fired.
    rewrite !count_occ_cons_neq by done. by apply count_occ_onTimeout.
  - intros evs' Hall'. by apply stopped_run.
Qed.

(** C1, as the code has it.  Start watching and, before any timer fires, let
    [onTimeout()] have at least one subscriber (subscribed before
    [startWatching()] or right after it); [obs] are the subscribers, [t] the
    configured timeout.  No activity is delivered.

    Whatever times and order the timers fire in: the emissions are nothing,
    or the entry into idleness alone, or that entry followed by one internal
    signal, the exit from idleness and one [true] for each subscriber, after
    which nothing is open; as long as no tick of the countdown comes at a
    whole-second time strictly greater than [lastActivity + t], no timeout
    is emitted; and as soon as an empty window of the idle pipeline is
    followed by such a tick, the timeout has been emitted: each subscriber
    has received exactly one [true], watching is stopped, and whatever
    happens next emits nothing until [startWatching()] is called again.

    With the timers fired when they are due, windows of [ms > 0]
    milliseconds: up to any time whose whole second is at most
    [lastActivity + t] no timeout is emitted, and, [lastActivity] not being
    ahead of the clock, the timeout has been emitted in full once every timer
    due in the first [ms] milliseconds plus [max t 0 + 1] seconds after
    [startWatching()] has fired. *)
Theorem timeout_fires_once (w : UserIdleService) (now0 t : Z)
    (subs : list (Z * Event)) :
  reachable w -> timeout (config w) = Some t ->
  Forall (fun te : Z * Event => te.2 = SubscribeOnTimeout) subs ->
  let w1 := (run subs (startWatching now0 w).1).1 in
  let obs := timeoutObservers w1 in
  let last := lastActivity w in
  let hI := S (length (heap w)) in
  obs <> [] ->
  (forall evs, Forall (fun te : Z * Event => timer_event te.2) evs ->
     let r := run evs w1 in
     (r.2 = [] \/ r.2 = [IdleStatusChanged true] \/
      (r.2 = IdleStatusChanged true :: timeout_fired obs /\ stopped r.1)) /\
     (Forall (fun te => ~ overdue_tick hI last t te) evs ->
      r.2 = [] \/ r.2 = [IdleStatusChanged true]) /\
     ((exists pre t1 mid t2 post,
         evs = pre ++ (t1, Flush hI) :: mid ++ (t2, Tick hI) :: post /\
         last + t < nowInSeconds t2) ->
      timed_out_once obs r)) /\
  (forall ms, sensitivityMilliseconds (config w) = Some ms ->
     (forall tEnd fuel, nowInSeconds tEnd <= last + t ->
        let r := run_timers fuel tEnd w1 in
        r.2 = [] \/ r.2 = [IdleStatusChanged true]) /\
     (0 < ms -> last <= nowInSeconds (now0 + ms) ->
      forall tEnd, now0 + ms + 1000 * (Z.max 0 t + 1) <= tEnd ->
      exists n, forall fuel, (n <= fuel)%nat ->
        timed_out_once obs (run_timers fuel tEnd w1))).
Proof.
  intros Hr Ht Hsubs. cbv zeta. intros Hobs.
  pose proof (reachable_Inv _ Hr) as HI.
  pose proof (startWatching_active now0 w HI) as Hph.
  destruct (startWatching_frame now0 w) as ((Ec & _) & El).
  destruct (subscribe_run subs (startWatching now0 w).1 Hsubs)
    as (_ & Eh & Ec1 & El1 & Ei & Ea & Eis & Eas).
  apply (in_phase_ext _ _ (run subs (startWatching now0 w).1).1) in Hph;
    try done.
  assert (Hnd : NoDup (timeoutObservers (run subs (startWatching now0 w).1).1)).
  { apply (reachable_Inv (run subs (step now0 StartWatching w).1).1).
    by apply reachable_run, reachable_step. }
  set (w1 := (run subs (startWatching now0 w).1).1) in *.
  assert (Ht1 : timeout (config w1) = Some t) by by rewrite Ec1, Ec.
  assert (EL : lastActivity w1 = lastActivity w) by by rewrite El1.
  split.
  - intros evs Hall.
    destruct (silent_run_refines _ evs _ ACTIVE t Hph Ht1 Hall)
      as (Eo & Hph' & _).
    rewrite EL in Eo, Hph'.
    destruct (timeoutObservers w1) as [|id ids] eqn:E; [done|].
    set (hI := S (length (heap w))) in *.
    set (m := machine_run hI (lastActivity w) t (id :: ids) ACTIVE evs) in *.
    pose proof (machine_run_active hI (lastActivity w) t id ids evs) as Hm.
    cbv zeta in Hm. fold m in Hm.
    split; [|split].
    + destruct Hm as [Hm | [Hm | Hm]]; rewrite Hm in Eo, Hph';
        cbn [fst snd] in *.
      * by left.
      * right. by left.
      * right. right. by split.
    + intros Hearly.
      pose proof (machine_run_active_early hI (lastActivity w) t (id :: ids)
                    evs Hearly) as Hm'.
      cbv zeta in Hm'. fold m in Hm'.
      destruct Hm' as [Hm' | Hm']; rewrite Hm' in Eo; cbn [fst snd] in *;
        [by left|by right].
    + intros (pre & t1 & mid & t2 & post & -> & Hc).
      pose proof (machine_run_active_fires hI (lastActivity w) t id ids
                    pre t1 mid t2 post Hc) as Hs.
      fold m in Hs.
      destruct Hm as [Hm | [Hm | Hm]]; rewrite Hm in Hs, Eo, Hph';
        cbn [fst snd] in *; try done.
      by apply timed_out_once_intro.
  - intros ms Hms.
    pose proof (startWatching_ideal now0 w t ms HI Ht Hms) as Hid.
    apply (subscribe_ideal _ _ _ _ _ _ _ _ _ subs Hsubs) in Hid. fold w1 in Hid.
    split.
    + intros tEnd fuel Hend.
      destruct (ideal_early_run _ _ _ _ _ tEnd Hend fuel _ _ _ _ Hid)
        as [E | [_ E]]; [by left|by right].
    + intros Hpos HL tEnd Hend.
      destruct (ideal_active_run _ _ _ _ _ tEnd Hobs Hpos 1%nat _ _ _ Hid HL Hend)
        as [n Hn]; [lia|].
      exists n. intros fuel Hfuel. destruct (Hn fuel Hfuel) as [Eo S].
      by apply timed_out_once_intro.
Qed.

Lemma timeout_fires_once_witness :
  let w1 := (run [(0, SubscribeOnTimeout)]
               (startWatching 0 (constructor (Some scenario_config) 0)).1).1 in
  let early := [(100, Flush 0%nat); (100, Flush 1%nat); (1100, Tick 1%nat);
                (2100, Tick 1%nat)] in
  let evs := early ++ [(3100, Tick 1%nat); (3200, Flush 1%nat)] in
  ((run early w1).2 = [] \/ (run early w1).2 = [IdleStatusChanged true]) /\
  timed_out_once [0%nat] (run evs w1) /\
  (forall fuel,
     (run_timers fuel 2999 w1).2 = [] \/
     (run_timers fuel 2999 w1).2 = [IdleStatusChanged true]) /\
  exists n, forall fuel, (n <= fuel)%nat ->
    timed_out_once [0%nat] (run_timers fuel 3100 w1).
Proof.
  cbv zeta.
  pose proof (timeout_fires_once (constructor (Some scenario_config) 0) 0 2
                [(0, SubscribeOnTimeout)]) as H.
  cbv zeta in H. destruct H as [H1 H2].
  - apply reachable_init.
  - reflexivity.
  - repeat constructor.
  - discriminate.
  - destruct (H2 100 eq_refl) as [H3 H4]. split; [|split; [|split]].
    + apply (H1 [(100, Flush 0%nat); (100, Flush 1%nat); (1100, Tick 1%nat);
                 (2100, Tick 1%nat)]).
      * repeat constructor.
      * repeat constructor; intros [E Hc]; try discriminate E;
          vm_compute in Hc; discriminate Hc.
    + apply (H1 [(100, Flush 0%nat); (100, Flush 1%nat); (1100, Tick 1%nat);
                 (2100, Tick 1%nat); (3100, Tick 1%nat); (3200, Flush 1%nat)]).
      * repeat constructor.
      * exists [(100, Flush 0%nat)], 100,
          [(1100, Tick 1%nat); (2100, Tick 1%nat)], 3100,
          [(3200, Flush 1%nat)].
        split; reflexivity.
    + intros fuel. apply (H3 2999 fuel). vm_compute. discriminate.
    + apply (H4 ltac:(lia)); vm_compute; discriminate.
Defined.


(** C1 as stated fails.  With a timeout of 2 seconds and windows of 100
    milliseconds, constructed, subscribed and started at time 0, every timer
    is fired when due for 2.5 seconds without any activity: the timers that
    fire are the windows every 100 ms and the ticks at 1100 and 2100 ms, and
    at 2100 ms the comparison is [0 + 2 < 2].  No timeout has been emitted,
    watching has not stopped, and the activity that arrives then cancels the
    countdown. *)
Lemma silence_of_timeout_length_emits_nothing :
  let r := run_timers 1000 2500 watching_state in
  timeout (config watching_state) = Some 2 /\
  r.2 = [IdleStatusChanged true] /\
  count_occ Out_eq_dec r.2 (OnTimeoutNext 0) = 0%nat /\
  idle_live r.1 = true /\
  earliest (timers r.1) = Some (2600, Flush 0%nat) /\
  (activity 0%nat 42%nat r.1).2 = [IdleStatusChanged false] /\
  forall h, ~ countdown_live (activity 0%nat 42%nat r.1).1 h.
Proof.
  cbv zeta. repeat split; try (vm_compute; reflexivity).
  intros h (s & cd & Hl & Hin). revert Hl Hin. vm_compute.
  destruct h as [|[|h]]; intros [= <-]; discriminate.
Qed.

(** * Further properties of the service *)

(** ** What writes [lastActivity] and [activityEvents] *)

Lemma flush_fields now h w :
  activityEvents (flush now h w).1 = activityEvents w /\
  lastActivity (flush now h w).1 =
    (if samples w (Flush h) then nowInSeconds now else lastActivity w).
Proof.
  unfold flush, samples. destruct (heap w !! h) as [s|]; [|done].
  destruct (closed s); [done|]. destruct (pipeline s) eqn:P; simpl.
  - by destruct (is_empty (buffer s)).
  - destruct (passes _ _); [|done]. rewrite andThen_eq. simpl.
    destruct (switchMap_static now h
      (set_isIdleDetected (Some true)
         (set_heap (<[h:=next_window s]> (heap w)) w)))
      as (_ & -> & -> & _).
    done.
Qed.

(** X1: after construction [lastActivity] is written by the sampler only: a
    step changes it exactly when it is a window of an open activity pipeline
    holding at least one raw event, and then to the whole second of that
    moment; no API call, raw event, idle window or tick touches it. *)
Theorem lastActivity_written_by_sampler (now : Z) (e : Event)
    (w : UserIdleService) :
  lastActivity (step now e w).1 =
  if samples w e then nowInSeconds now else lastActivity w.
Proof.
  destruct e; simpl.
  - apply startWatching_frame.
  - apply stopWatching_static.
  - apply setCustomActivityEvents_frame.
  - done.
  - done.
  - apply activity_static.
  - apply flush_fields.
  - apply tick_static.
Qed.

(** X2: the activity feed is replaced by an accepted
    [setCustomActivityEvents] only; [startWatching()] installs the default
    when no feed is set and keeps a feed that is set; nothing else writes the
    field, and once set it is never unset. *)
Theorem activityEvents_written_by (now : Z) (e : Event) (w : UserIdleService) :
  activityEvents (step now e w).1 =
  match e with
  | SetCustomActivityEvents src =>
      if idle_live w then activityEvents w else Some src
  | StartWatching =>
      Some (default DEFAULT_ACTIVITY_EVENTS (activityEvents w))
  | _ => activityEvents w
  end.
Proof.
  destruct e; simpl.
  - apply startWatching_subscribes.
  - apply stopWatching_static.
  - unfold setCustomActivityEvents, emit. by destruct (idle_live w).
  - done.
  - done.
  - apply activity_static.
  - apply flush_fields.
  - apply tick_static.
Qed.

(** ** Stopping twice, stopping before starting *)

Lemma stopWatching_closes w :
  live_at (stopWatching w).1 (idleSubscription w) = false /\
  live_at (stopWatching w).1 (activitySubscription w) = false.
Proof.
  rewrite stopWatching_eq, andThen_eq. cbn [fst]. split.
  - apply unsubscribe_opt_live_at, unsubscribe_opt_closes.
  - apply unsubscribe_opt_closes.
Qed.

Lemma stopWatching_nothing_open w :
  live_at w (idleSubscription w) = false ->
  live_at w (activitySubscription w) = false ->
  stopWatching w = (w, []).
Proof.
  intros H1 H2. rewrite stopWatching_eq, andThen_eq.
  rewrite (unsubscribe_opt_idle _ w H1). cbn [fst snd].
  by rewrite (unsubscribe_opt_idle _ w H2).
Qed.

Lemma stopWatching_again w :
  stopWatching (stopWatching w).1 = ((stopWatching w).1, []).
Proof.
  destruct (stopWatching_static w) as (_ & _ & _ & Ei & Ea & _).
  destruct (stopWatching_closes w) as [H1 H2].
  apply stopWatching_nothing_open; by rewrite ?Ei, ?Ea.
Qed.

(** X3: in every state, calling [stopWatching()] twice in a row is the same
    as calling it once: the second call changes nothing and emits nothing,
    so the cleanup of a countdown never runs twice. *)
Theorem stopWatching_idempotent (w : UserIdleService) :
  (stopWatching ;> stopWatching) w = stopWatching w.
Proof.
  rewrite andThen_eq, stopWatching_again. cbn [fst snd].
  rewrite app_nil_r. by destruct (stopWatching w).
Qed.

(** X4: in every state, [stopWatching()] followed by [startWatching()] is
    [startWatching()] alone: same resulting state, same emissions. *)
Theorem stopWatching_then_startWatching (now : Z) (w : UserIdleService) :
  (stopWatching ;> startWatching now) w = startWatching now w.
Proof.
  rewrite andThen_eq, (startWatching_eq now (stopWatching w).1).
  rewrite stopWatching_again. cbn [fst snd].
  by rewrite app_nil_r, startWatching_eq.
Qed.

(** ** When the activity feed can be replaced *)

Lemma startWatching_idle_live now w : idle_live (startWatching now w).1 = true.
Proof.
  destruct (startWatching_subscribes now w) as (_ & _ & Ei & _ & Li & _).
  unfold idle_live. by rewrite Ei, Li.
Qed.

Lemma stopWatching_idle_live w : idle_live (stopWatching w).1 = false.
Proof.
  destruct (stopWatching_static w) as (_ & _ & _ & Ei & _).
  destruct (stopWatching_closes w) as [H _].
  change (live_at (stopWatching w).1 (idleSubscription (stopWatching w).1)
          = false).
  by rewrite Ei.
Qed.

(** X5: in every state, [setCustomActivityEvents] right after
    [startWatching()] is refused (error logged, nothing changed), and right
    after [stopWatching()] it is accepted (feed replaced, nothing logged). *)
Theorem setCustomActivityEvents_needs_stop (now : Z) (src : Source)
    (w : UserIdleService) :
  setCustomActivityEvents src (startWatching now w).1 =
    ((startWatching now w).1, [ConsoleError console_message]) /\
  setCustomActivityEvents src (stopWatching w).1 =
    (set_activityEvents (Some src) (stopWatching w).1, []).
Proof.
  unfold setCustomActivityEvents, emit.
  by rewrite startWatching_idle_live, stopWatching_idle_live.
Qed.

(** ** Events of another feed *)

Lemma deliver_other src p s :
  closed s = false -> feed s <> src -> listens src s = false ->
  deliver src p s = s.
Proof.
  unfold deliver. intros Hc Hf L.
  rewrite Hc, L, bool_decide_eq_false_2 by done.
  destruct s; simpl in *. by subst.
Qed.

Lemma set_heap_same w : set_heap (heap w) w = w.
Proof. by destruct w. Qed.

(** X6: in every reachable state, a raw event of a feed other than the
    current activity feed does nothing at all: no buffer grows, no countdown
    is cancelled, nothing is emitted.  In particular, after a refused
    [setCustomActivityEvents] the events of the refused feed are ignored. *)
Theorem foreign_activity_ignored (w : UserIdleService) (src : Source)
    (p : Payload) :
  reachable w -> activityEvents w <> Some src -> activity src p w = (w, []).
Proof.
  intros Hr Hne. apply reachable_Inv in Hr.
  destruct Hr as [_ [S|(hA & hI & sA & sI & W)]].
  { by apply stopped_activity. }
  rewrite (watching_activity src p _ _ _ _ _ W). pose proof W as [].
  assert (L : listens src sI = false).
  { unfold listens. rewrite w_openI0. simpl.
    destruct (inner sI) as [cd|] eqn:E; [|done].
    apply bool_decide_eq_false. rewrite (w_notifier0 cd eq_refl). congruence. }
  rewrite L. cbv zeta.
  rewrite (deliver_other src p sI), (deliver_other src p sA); try done;
    try congruence.
  - by rewrite (list_insert_id _ hI sI), (list_insert_id _ hA sA), set_heap_same.
  - by apply listens_no_countdown.
Qed.

Lemma foreign_activity_ignored_witness :
  activity 7%nat 42%nat idle_state = (idle_state, []).
Proof.
  apply foreign_activity_ignored.
  - apply reachable_idle_state.
  - discriminate.
Defined.

(** ** The two subscriptions go together *)

Lemma stopped_live_at w o : stopped w -> live_at w o = false.
Proof.
  intros [Hall _]. destruct o as [h|]; [|done]. simpl.
  destruct (heap w !! h) as [s|] eqn:E; [|done].
  by destruct (proj1 (Forall_lookup _ _) Hall h s E) as [-> _].
Qed.

(** X7: in every reachable state the sampler and the idle pipeline are open
    together or closed together, and every open subscription is one of the
    two the service points at, built on the current activity feed. *)
Theorem subscriptions_paired (w : UserIdleService) :
  reachable w ->
  idle_live w = live_at w (activitySubscription w) /\
  forall h s, heap w !! h = Some s -> closed s = false ->
    activityEvents w = Some (feed s) /\
    (idleSubscription w = Some h /\ pipeline s = IdlePipe \/
     activitySubscription w = Some h /\ pipeline s = ActivityPipe).
Proof.
  intros Hr. apply reachable_Inv in Hr.
  destruct Hr as [_ [S|(hA & hI & sA & sI & W)]].
  - rewrite stopped_idle_live, stopped_live_at by done. split; [done|].
    intros h s Hl Hc. destruct S as [Hall _].
    destruct (proj1 (Forall_lookup _ _) Hall h s Hl) as [Hc' _]. congruence.
  - rewrite (watching_idle_live _ _ _ _ _ W), (watching_live_at _ _ _ _ _ W).
    split; [done|]. intros h s Hl Hc.
    destruct (watching_open _ _ _ _ _ h W) as [-> | ->]; [by exists s| |];
      destruct W.
    + assert (s = sA) as -> by congruence. split; [done|]. by right.
    + assert (s = sI) as -> by congruence. split; [done|]. by left.
Qed.

Lemma subscriptions_paired_witness :
  idle_live idle_state = live_at idle_state (activitySubscription idle_state).
Proof. apply (subscriptions_paired idle_state), reachable_idle_state. Defined.

(** ** Delivery of a timeout *)

Lemma watching_fire now w hA hI sA sI cd :
  watching w hA hI sA sI -> inner sI = Some cd ->
  timed_out now w = true ->
  let r := tick now hI w in
  r.2 = (match timeoutObservers w with
         | [] => [TimeoutSignal]
         | ids => timeout_fired ids
         end) /\
  (timeoutObservers w <> [] -> stopped r.1 /\ isIdleDetected r.1 = Some false).
Proof.
  intros W Hin Ht. cbv zeta.
  destruct (watching_tick_idle now _ _ _ _ _ cd W Hin) as [-> W1]. rewrite Ht.
  rewrite (watching_timeout_next _ _ _ _ _ W1).
  set (w1 := set_heap _ w) in *.
  change (timeoutObservers w1) with (timeoutObservers w).
  destruct (timeoutObservers w) as [|id ids]; [done|].
  pose proof (watching_stopWatching_stopped _ _ _ _ _ W1) as S.
  rewrite (watching_stopWatching _ _ _ _ _ W1) in *. by simpl in *.
Qed.

(** X8: in every reachable state with a live countdown and at least one
    subscriber of [onTimeout()], a tick at which the timeout comparison holds
    emits the internal signal, runs the cleanup of the countdown once
    (idle-status [false]) when the first subscriber's pipeline stops
    watching, and then delivers [true] to every subscriber in subscription
    order; afterwards nothing is subscribed and [isIdleDetected] is
    [false]. *)
Theorem timeout_delivered_to_all (w : UserIdleService) (now : Z) (h : nat) :
  reachable w -> countdown_live w h -> timeoutObservers w <> [] ->
  timed_out now w = true ->
  (tick now h w).2 =
    TimeoutSignal :: IdleStatusChanged false ::
    (OnTimeoutNext <$> timeoutObservers w) /\
  stopped (tick now h w).1 /\
  isIdleDetected (tick now h w).1 = Some false.
Proof.
  intros Hr Hcd Hobs Ht. apply reachable_Inv in Hr.
  destruct Hr as [_ [S|(hA & hI & sA & sI & W)]].
  { by eapply stopped_no_countdown in Hcd. }
  destruct (watching_countdown _ _ _ _ _ _ W Hcd) as [-> C].
  unfold counting in C. destruct (inner sI) as [cd|] eqn:E; [|done].
  destruct (watching_fire now _ _ _ _ _ cd W E Ht) as [Eo Hs].
  destruct (Hs Hobs) as [S F]. split; [|done].
  rewrite Eo. by destruct (timeoutObservers w).
Qed.

Lemma timeout_delivered_to_all_witness :
  (tick 3100 1 idle_state).2 =
    [TimeoutSignal; IdleStatusChanged false; OnTimeoutNext 0] /\
  stopped (tick 3100 1 idle_state).1 /\
  isIdleDetected (tick 3100 1 idle_state).1 = Some false.
Proof.
  apply (timeout_delivered_to_all idle_state 3100 1).
  - apply reachable_idle_state.
  - eexists _, _. split; reflexivity.
  - discriminate.
  - reflexivity.
Defined.

(** ** The idle-status stream *)

Lemma statuses_app o1 o2 : statuses (o1 ++ o2) = statuses o1 ++ statuses o2.
Proof. apply omap_app. Qed.

Lemma statuses_onTimeout ids : statuses (OnTimeoutNext <$> ids) = [].
Proof. induction ids as [|id ids IH]; [done|]. exact IH. Qed.

Lemma stopWatching_status w :
  Inv w ->
  quiet_status w (stopWatching w).1 (stopWatching w).2 \/
  flipped_status w (stopWatching w).1 (stopWatching w).2.
Proof.
  intros [_ [S|(hA & hI & sA & sI & W)]].
  - left. by rewrite stopped_stopWatching.
  - rewrite (watching_stopWatching _ _ _ _ _ W). pose proof W as [].
    destruct (counting sI) eqn:C; cbv zeta; [right|left]; split; simpl;
      by rewrite ?w_flag0.
Qed.

Lemma step_status now e w :
  Inv w ->
  quiet_status w (step now e w).1 (step now e w).2 \/
  flipped_status w (step now e w).1 (step now e w).2.
Proof.
  intros HI. destruct e; simpl.
  - destruct (startWatching_subscribes now w) as (_ & _ & _ & _ & _ & Ef).
    cbv zeta in Ef.
    assert (Eo : (startWatching now w).2 = (stopWatching w).2)
      by by rewrite startWatching_eq.
    unfold quiet_status, flipped_status. rewrite Ef, Eo.
    by apply stopWatching_status.
  - by apply stopWatching_status.
  - left. unfold setCustomActivityEvents, emit. by destruct (idle_live w).
  - by left.
  - by left.
  - destruct HI as [_ [S|(hA & hI & sA & sI & W)]].
    + left. by rewrite stopped_activity.
    + rewrite (watching_activity src p _ _ _ _ _ W). pose proof W as [].
      destruct (listens src sI) eqn:L; cbv zeta; [right|left]; split; simpl;
        try done.
      * rewrite w_flag0. unfold listens, counting in *.
        by destruct (inner sI); [|rewrite andb_false_r in L].
      * rewrite w_flag0. unfold listens, counting in *.
        by destruct (inner sI); [|rewrite andb_false_r in L].
  - destruct HI as [_ [S|(hA & hI & sA & sI & W)]].
    + left. by rewrite stopped_flush.
    + pose proof W as [].
      destruct (decide (h = hA)) as [->|HnA].
      { left. rewrite (flush_activity now hA w sA) by done. split; [done|].
        simpl. by destruct (is_empty (buffer sA)). }
      destruct (decide (h = hI)) as [->|HnI].
      2:{ left. by rewrite (watching_flush_other now h _ _ _ _ _ W). }
      destruct (passes w (buffer sI)) eqn:Hp.
      * right. pose proof (watching_passes _ _ _ _ _ W Hp) as Hin.
        rewrite (flush_idle_passes now hI w sI) by done.
        unfold counting. rewrite Hin. simpl.
        unfold passes in Hp. apply andb_prop in Hp as [_ Hp].
        apply negb_true_iff in Hp. unfold flipped_status. simpl.
        by rewrite Hp.
      * left. by rewrite (flush_idle_blocked now hI w sI).
  - destruct HI as [_ [S|(hA & hI & sA & sI & W)]].
    + left. by rewrite stopped_tick.
    + destruct (decide (h = hI)) as [->|HnI].
      2:{ left. by rewrite (watching_tick_other now h _ _ _ _ _ W). }
      destruct (inner sI) as [cd|] eqn:E.
      2:{ left. destruct W. by rewrite (tick_no_countdown now hI w sI). }
      destruct (timed_out now w) eqn:Ht.
      2:{ left. destruct (watching_tick_idle now _ _ _ _ _ cd W E) as [-> _].
          by rewrite Ht. }
      destruct (watching_fire now _ _ _ _ _ cd W E Ht) as [Eo Hs].
      cbv zeta in Eo, Hs. pose proof W as [].
      assert (Tr : truthy (isIdleDetected w) = true).
      { rewrite w_flag0. unfold counting. by rewrite E. }
      destruct (timeoutObservers w) as [|id ids] eqn:Eobs.
      * left. split; [by rewrite Eo|].
        destruct (watching_tick_idle now _ _ _ _ _ cd W E) as [-> _].
        rewrite Ht, timeout_next_eq. simpl. by rewrite Eobs.
      * right. destruct Hs as [_ F]; [done|]. split.
        -- rewrite Eo, Tr. unfold timeout_fired.
           change (statuses _) with
             (false :: statuses (OnTimeoutNext <$> ids)).
           by rewrite (statuses_onTimeout ids).
        -- by rewrite F, Tr.
Qed.

Lemma default_last_cons {A} (a b : A) (l : list A) :
  default a (last (b :: l)) = default b (last l).
Proof.
  revert a b. induction l as [|y l IH]; intros a b; [done|].
  change (last (b :: y :: l)) with (last (y :: l)).
  by rewrite (IH a y), (IH b y).
Qed.

Lemma run_status evs : forall w,
  Inv w ->
  alternating (truthy (isIdleDetected w)) (statuses (run evs w).2) = true /\
  truthy (isIdleDetected (run evs w).1) =
    default (truthy (isIdleDetected w)) (last (statuses (run evs w).2)).
Proof.
  induction evs as [|[now e] evs IH]; intros w HI; [done|].
  rewrite run_cons. cbn [fst snd]. rewrite statuses_app.
  pose proof (step_Inv now e w HI) as HI'.
  destruct (IH _ HI') as [IH1 IH2].
  destruct (step_status now e w HI) as [[Es Ef]|[Es Ef]]; rewrite Es.
  - simpl. by rewrite <- Ef.
  - rewrite <- app_comm_cons, app_nil_l, default_last_cons. cbn [alternating].
    rewrite bool_decide_eq_true_2 by done. by rewrite <- Ef.
Qed.

(** X9: on every run from a reachable state, the values
    [onIdleStatusChanged()] delivers alternate, beginning with the opposite
    of the current flag, so the stream never repeats a value; and
    [isIdleDetected] is the last value delivered (or what it was, when none
    was).  From construction the first value, if any, is [true]. *)
Theorem idle_status_alternates (w : UserIdleService)
    (evs : list (Z * Event)) :
  reachable w ->
  alternating (truthy (isIdleDetected w)) (statuses (run evs w).2) = true /\
  truthy (isIdleDetected (run evs w).1) =
    default (truthy (isIdleDetected w)) (last (statuses (run evs w).2)) /\
  forall cfg t0 evs0,
    alternating false (statuses (run evs0 (constructor cfg t0)).2) = true.
Proof.
  intros Hr. apply reachable_Inv in Hr.
  destruct (run_status evs w Hr) as [H1 H2]. split; [done|]. split; [done|].
  intros cfg t0 evs0. by destruct (run_status evs0 _ (Inv_init cfg t0)).
Qed.

Lemma idle_status_alternates_witness :
  let evs := [(150, Activity 0%nat 1%nat); (200, Flush 1%nat);
              (300, Flush 1%nat); (1300, Tick 1%nat); (1400, StopWatching)] in
  statuses (run evs idle_state).2 = [false; true; false] /\
  alternating (truthy (isIdleDetected idle_state))
    (statuses (run evs idle_state).2) = true.
Proof.
  cbv zeta. split; [reflexivity|].
  apply (idle_status_alternates idle_state), reachable_idle_state.
Defined.

(** ** A user who stays active *)

Lemma deliver_open src p s :
  closed s = false ->
  closed (deliver src p s) = false /\
  pipeline (deliver src p s) = pipeline s /\
  feed (deliver src p s) = feed s /\
  buffer (deliver src p s) =
    (if bool_decide (feed s = src) then buffer s ++ [p] else buffer s) /\
  inner (deliver src p s) = (if listens src s then None else inner s).
Proof. unfold deliver. by intros ->. Qed.

Lemma snoc_not_nil {A} (l : list A) (x : A) : l ++ [x] <> [].
Proof. by destruct l. Qed.

Lemma is_empty_false (l : list Payload) : l <> [] -> is_empty l = false.
Proof. by destruct l. Qed.

Lemma staying_active_step hI src pending now e rest w :
  staying_active hI src pending w ->
  busy hI src pending ((now, e) :: rest) = true ->
  (step now e w).2 = [] /\
  exists pending',
    staying_active hI src pending' (step now e w).1 /\
    busy hI src pending' rest = true.
Proof.
  intros (hA & sA & sI & W & Hin & Hf & Hb) Hbusy. pose proof W as [].
  destruct e; simpl in Hbusy; try done; simpl.
  - (* a raw event *)
    assert (L : listens src0 sI = false) by by apply listens_no_countdown.
    rewrite (watching_activity src0 p _ _ _ _ _ W) at 1. rewrite L.
    split; [done|]. eexists. split; [|exact Hbusy].
    exists hA, (deliver src0 p sA), (deliver src0 p sI).
    destruct (deliver_open src0 p sI w_openI0) as (_ & _ & Ef & Eb & Ei).
    split; [by apply watching_deliver|]. rewrite Ef, Eb, Ei, L.
    split; [done|]. split; [done|].
    destruct (decide (src0 = src)) as [Hs|Hs].
    + rewrite (bool_decide_eq_true_2 (feed sI = src0)) by congruence.
      intros _. apply snoc_not_nil.
    + rewrite (bool_decide_eq_false_2 (src0 = src)) by done. intros Hpend.
      case_bool_decide; [apply snoc_not_nil|by apply Hb].
  - (* a window *)
    case_bool_decide as Hh.
    + subst h. apply andb_prop in Hbusy as [-> Hbusy].
      assert (Hp : passes w (buffer sI) = false).
      { unfold passes. by rewrite is_empty_false by by apply Hb. }
      destruct (watching_flush_idle_blocked now _ _ _ _ _ W Hp) as [-> W'].
      split; [done|]. exists false. split; [|done].
      exists hA, sA, (next_window sI).
      split; [exact W'|]. split; [done|]. by split.
    + destruct (decide (h = hA)) as [->|HnA].
      * destruct (watching_flush_activity now _ _ _ _ _ W) as [-> W'].
        split; [done|]. exists pending. split; [|done].
        by exists hA, (next_window sA), sI.
      * rewrite (watching_flush_other now h _ _ _ _ _ W) by done.
        split; [done|]. exists pending. split; [|done].
        by exists hA, sA, sI.
  - (* a tick *)
    assert (E : tick now h w = (w, [])).
    { destruct (decide (h = hI)) as [->|HnI].
      - by eapply tick_no_countdown.
      - by eapply watching_tick_other. }
    rewrite E. split; [done|]. exists pending. split; [|done].
    by exists hA, sA, sI.
Qed.

Lemma staying_active_run hI src evs : forall pending w,
  staying_active hI src pending w -> busy hI src pending evs = true ->
  (run evs w).2 = [] /\
  exists pending', staying_active hI src pending' (run evs w).1.
Proof.
  induction evs as [|[now e] evs IH]; intros pending w HS Hbusy.
  - split; [done|]. by exists pending.
  - destruct (staying_active_step _ _ _ _ _ _ _ HS Hbusy)
      as (Eo & pending' & HS' & Hbusy').
    rewrite run_cons. cbn [fst snd]. rewrite Eo.
    by apply (IH pending').
Qed.

Lemma startWatching_staying_active now w :
  Inv w ->
  staying_active (S (length (heap w)))
    (default DEFAULT_ACTIVITY_EVENTS (activityEvents w)) false
    (startWatching now w).1.
Proof.
  intros HI. do 3 eexists. split; [by apply Inv_startWatching|].
  split; [done|]. split; [|done].
  unfold new_subscription. cbn [feed]. rewrite install_default_feed.
  by destruct (stopWatching_static w) as (_ & _ & -> & _).
Qed.

(** X10: start watching, and let raw events of any feed, windows and ticks
    follow in any order, such that every window of the idle pipeline closes
    after at least one raw event of the activity feed arrived in it.  Then
    nothing is ever emitted (no idle status, no timeout), no countdown is
    started, [isIdleDetected] stays unset or false, and watching goes on. *)
Theorem activity_in_every_window_prevents_idle (w : UserIdleService)
    (now0 : Z) (evs : list (Z * Event)) :
  reachable w ->
  busy (S (length (heap w)))
    (default DEFAULT_ACTIVITY_EVENTS (activityEvents w)) false evs = true ->
  let r := run evs (startWatching now0 w).1 in
  r.2 = [] /\ idle_live r.1 = true /\
  truthy (isIdleDetected r.1) = false /\
  forall h, ~ countdown_live r.1 h.
Proof.
  intros Hr Hbusy. apply reachable_Inv in Hr. cbv zeta.
  pose proof (startWatching_staying_active now0 w Hr) as HS.
  destruct (staying_active_run _ _ evs _ _ HS Hbusy)
    as (Eo & pending' & hA & sA & sI & W & Hin & _).
  split; [exact Eo|]. split; [by eapply watching_idle_live|].
  pose proof W as []. split.
  - rewrite w_flag0. unfold counting. by rewrite Hin.
  - intros h Hh. destruct (watching_countdown _ _ _ _ _ _ W Hh) as [_ C].
    unfold counting in C. by rewrite Hin in C.
Qed.

Lemma activity_in_every_window_prevents_idle_witness :
  let evs := [(50, Activity 0%nat 1%nat); (100, Flush 0%nat);
              (100, Flush 1%nat); (150, Activity 0%nat 2%nat);
              (160, Activity 9%nat 3%nat); (200, Flush 1%nat);
              (200, Flush 0%nat); (1100, Tick 1%nat)] in
  (run evs (startWatching 0 subscribed_state).1).2 = [] /\
  idle_live (run evs (startWatching 0 subscribed_state).1).1 = true.
Proof.
  cbv zeta.
  pose proof (activity_in_every_window_prevents_idle subscribed_state 0
    [(50, Activity 0%nat 1%nat); (100, Flush 0%nat);
     (100, Flush 1%nat); (150, Activity 0%nat 2%nat);
     (160, Activity 9%nat 3%nat); (200, Flush 1%nat);
     (200, Flush 0%nat); (1100, Tick 1%nat)]
    reachable_subscribed_state eq_refl) as H.
  cbv zeta in H. destruct H as (H1 & H2 & _). by split.
Defined.

(** ** Activity during a countdown, then silence again *)

Lemma samples_idle_window w hA hI sA sI :
  watching w hA hI sA sI -> samples w (Flush hI) = false.
Proof.
  intros []. unfold samples. rewrite w_lookI0, w_pipeI0.
  rewrite (bool_decide_eq_false_2 (IdlePipe = ActivityPipe)) by done.
  by rewrite andb_false_r.
Qed.

(** X11: a raw event of the activity feed during a countdown, then the
    window of the sampler, then two windows of the idle pipeline, with
    nothing in between.  The event cancels the countdown (idle-status
    [false]); the sampler's window sets [lastActivity] to its own whole
    second; the first idle window holds the event and lets nothing through;
    the second is empty and starts a new countdown (idle-status [true]) that
    listens to the same feed and ticks first one second later. *)
Theorem activity_then_silence_restarts_countdown (w : UserIdleService)
    (src : Source) (p : Payload) (hA hI : nat) (t t1 t2 t3 : Z) :
  reachable w -> countdown_live w hI ->
  activitySubscription w = Some hA -> activityEvents w = Some src ->
  let r := run [(t, Activity src p); (t1, Flush hA); (t2, Flush hI);
                (t3, Flush hI)] w in
  r.2 = [IdleStatusChanged false; IdleStatusChanged true] /\
  lastActivity r.1 = nowInSeconds t1 /\
  exists s, heap r.1 !! hI = Some s /\
    inner s = Some {| notifier := Some src; tickAt := t3 + 1000 |}.
Proof.
  intros Hr Hcd EA Ea. apply reachable_Inv in Hr.
  destruct Hr as [_ [S|(hA' & hI' & sA & sI & W)]].
  { by eapply stopped_no_countdown in Hcd. }
  destruct (watching_countdown _ _ _ _ _ _ W Hcd) as [E0 C]. subst hI'.
  pose proof W as [].
  assert (hA' = hA) as -> by congruence.
  assert (FI : feed sI = src) by congruence.
  assert (FA : feed sA = src) by congruence.
  assert (L : listens src sI = true).
  { unfold listens. rewrite w_openI0. simpl. unfold counting in C.
    destruct (inner sI) as [cd|] eqn:E; [|done].
    apply bool_decide_eq_true. rewrite (w_notifier0 cd eq_refl). congruence. }
  (* the raw event *)
  set (w1 := (activity src p w).1).
  assert (O1 : (activity src p w).2 = [IdleStatusChanged false]).
  { by rewrite (watching_activity src p _ _ _ _ _ W), L. }
  pose proof (watching_deliver src p _ _ _ _ _ W) as W1. fold w1 in W1.
  destruct (deliver_open src p sA w_openA0) as (CA1 & PA1 & _ & BA1 & _).
  destruct (deliver_open src p sI w_openI0) as (CI1 & PI1 & _ & BI1 & II1).
  rewrite bool_decide_eq_true_2 in BA1, BI1 by done. rewrite L in II1.
  assert (A1 : activityEvents w1 = Some src).
  { unfold w1. by destruct (activity_static src p w) as (_ & _ & -> & _). }
  (* the window of the sampler *)
  set (w2 := (flush t1 hA w1).1).
  destruct (watching_flush_activity t1 _ _ _ _ _ W1) as [O2 W2]. fold w2 in W2.
  destruct (flush_fields t1 hA w1) as [A2 L2]. fold w2 in A2, L2.
  assert (S2 : samples w1 (Flush hA) = true).
  { unfold samples. destruct W1. rewrite w_lookA1, CA1, PA1, w_pipeA0, BA1.
    rewrite bool_decide_eq_true_2 by done. simpl.
    by rewrite is_empty_false by apply snoc_not_nil. }
  rewrite S2 in L2.
  (* the window that holds the event *)
  set (w3 := (flush t2 hI w2).1).
  assert (P3 : passes w2 (buffer (deliver src p sI)) = false).
  { unfold passes. rewrite BI1.
    by rewrite is_empty_false by apply snoc_not_nil. }
  destruct (watching_flush_idle_blocked t2 _ _ _ _ _ W2 P3) as [O3 W3].
  fold w3 in W3.
  destruct (flush_fields t2 hI w2) as [A3 L3]. fold w3 in A3, L3.
  rewrite (samples_idle_window _ _ _ _ _ W2) in L3.
  (* the empty window *)
  set (w4 := (flush t3 hI w3).1).
  assert (P4 : passes w3 (buffer (next_window (deliver src p sI))) = true).
  { unfold passes. simpl. destruct W3 as [_ _ _ _ _ _ _ _ _ _ _ _ F3 _].
    rewrite F3. unfold counting. simpl. by rewrite II1. }
  destruct (watching_flush_idle_passes t3 _ _ _ _ _ W3 P4) as [O4 W4].
  fold w4 in W4.
  destruct (flush_fields t3 hI w3) as [A4 L4]. fold w4 in A4, L4.
  rewrite (samples_idle_window _ _ _ _ _ W3) in L4.
  (* the run *)
  cbv zeta. rewrite !run_cons. simpl step. fold w1. fold w2. fold w3. fold w4.
  rewrite O1, O2, O3, O4. change (run [] w4) with (w4, @nil Out).
  cbn [fst snd app].
  split; [done|]. split; [by rewrite L4, L3, L2|].
  destruct W4 as [_ _ _ LI4 _ _ _ _ _ _ _ _ _ _].
  eexists. split; [exact LI4|]. simpl. by rewrite A3, A2, A1.
Qed.

Lemma activity_then_silence_restarts_countdown_witness :
  let r := run [(1500, Activity 0%nat 42%nat); (1600, Flush 0%nat);
                (1600, Flush 1%nat); (1700, Flush 1%nat)] idle_state in
  r.2 = [IdleStatusChanged false; IdleStatusChanged true] /\
  lastActivity r.1 = nowInSeconds 1600 /\
  exists s, heap r.1 !! 1%nat = Some s /\
    inner s = Some {| notifier := Some 0%nat; tickAt := 1700 + 1000 |}.
Proof.
  apply (activity_then_silence_restarts_countdown idle_state 0%nat 42%nat
           0%nat 1%nat 1500 1600 1600 1700).
  - apply reachable_idle_state.
  - eexists _, _. split; reflexivity.
  - reflexivity.
  - reflexivity.
Defined.

(** ** Bounds on [lastActivity] *)

Lemma step_lastActivity_cases now e w :
  lastActivity (step now e w).1 = lastActivity w \/
  lastActivity (step now e w).1 = nowInSeconds now.
Proof.
  destruct e; simpl; try (left; done).
  - left. apply startWatching_frame.
  - left. apply stopWatching_static.
  - left. apply setCustomActivityEvents_frame.
  - left. apply activity_static.
  - destruct (flush_fields now h w) as [_ ->].
    destruct (samples w (Flush h)); [by right|by left].
  - left. apply tick_static.
Qed.

Lemma run_lastActivity_bounds lo hi evs : forall w,
  lo <= lastActivity w <= hi ->
  Forall (fun te : Z * Event => lo <= nowInSeconds te.1 <= hi) evs ->
  lo <= lastActivity (run evs w).1 <= hi.
Proof.
  induction evs as [|[now e] evs IH]; intros w Hw Hall; [done|].
  apply Forall_cons in Hall as [He Hall]. simpl in He.
  rewrite run_cons. cbn [fst]. apply IH; [|done].
  destruct (step_lastActivity_cases now e w) as [-> | ->]; done.
Qed.

(** X12: [lastActivity] is never in the future and never before
    construction: if the service is constructed at [t0] and every later
    event happens between [t0] and [tmax], then at the end
    [floor(t0/1000) <= lastActivity <= floor(tmax/1000)]. *)
Theorem lastActivity_within_lifetime (cfg : option UserIdleConfig)
    (t0 tmax : Z) (evs : list (Z * Event)) :
  t0 <= tmax ->
  Forall (fun te : Z * Event => t0 <= te.1 <= tmax) evs ->
  nowInSeconds t0 <= lastActivity (run evs (constructor cfg t0)).1
    <= nowInSeconds tmax.
Proof.
  intros Hle Hall. apply run_lastActivity_bounds.
  - simpl. split; [lia|by apply nowInSeconds_mono].
  - eapply Forall_impl; [exact Hall|]. intros te [H1 H2].
    split; by apply nowInSeconds_mono.
Qed.

Lemma lastActivity_within_lifetime_witness :
  let evs := [(0, StartWatching); (700, Activity 0%nat 1%nat);
              (1500, Flush 0%nat); (1500, Flush 1%nat)] in
  nowInSeconds 0 <= lastActivity (run evs (constructor None 0)).1
    <= nowInSeconds 2000.
Proof.
  cbv zeta. apply lastActivity_within_lifetime; [lia|].
  repeat constructor; simpl; lia.
Defined.

(** ** After [stopWatching()] *)

Lemma stopped_run_lastActivity evs : forall w,
  stopped w -> Forall (fun te : Z * Event => te.2 <> StartWatching) evs ->
  lastActivity (run evs w).1 = lastActivity w /\
  truthy (isIdleDetected (run evs w).1) = false.
Proof.
  induction evs as [|[now e] evs IH]; intros w S Hall.
  { split; [done|]. by destruct S. }
  apply Forall_cons in Hall as [He Hall]. simpl in He.
  destruct (stopped_step now e w S He) as [_ S'].
  rewrite run_cons. cbn [fst]. destruct (IH _ S' Hall) as [-> ->].
  split; [|done].
  destruct e; simpl; try done.
  - by rewrite stopped_stopWatching.
  - apply setCustomActivityEvents_frame.
  - by rewrite stopped_activity.
  - by rewrite stopped_flush.
  - by rewrite stopped_tick.
Qed.

(** X13: [stopWatching()] really stops, in every reachable state: whatever
    follows, short of [startWatching()] (raw events of any feed, windows
    and ticks left over from the old session, further calls), emits nothing,
    leaves [lastActivity] as it was, starts no countdown and never sets
    [isIdleDetected]. *)
Theorem stopWatching_silences (w : UserIdleService) (evs : list (Z * Event)) :
  reachable w ->
  Forall (fun te : Z * Event => te.2 <> StartWatching) evs ->
  let r := run evs (stopWatching w).1 in
  r.2 = [] /\ lastActivity r.1 = lastActivity w /\
  truthy (isIdleDetected r.1) = false /\
  idle_live r.1 = false /\ forall h, ~ countdown_live r.1 h.
Proof.
  intros Hr Hall. apply reachable_Inv in Hr. cbv zeta.
  pose proof (Inv_stopWatching w Hr) as S.
  destruct (stopped_run evs _ S Hall) as [Eo S'].
  destruct (stopped_run_lastActivity evs _ S Hall) as [El Ef].
  split; [exact Eo|]. split.
  { rewrite El. apply stopWatching_static. }
  split; [exact Ef|]. split; [by apply stopped_idle_live|].
  intros h. by apply stopped_no_countdown.
Qed.

Lemma stopWatching_silences_witness :
  let evs := [(1100, Tick 1%nat); (1200, Flush 1%nat);
              (1300, Activity 0%nat 5%nat); (1400, Flush 0%nat);
              (3100, Tick 1%nat); (3200, StopWatching)] in
  (run evs (stopWatching idle_state).1).2 = [] /\
  lastActivity (run evs (stopWatching idle_state).1).1 =
    lastActivity idle_state.
Proof.
  cbv zeta.
  pose proof (stopWatching_silences idle_state
    [(1100, Tick 1%nat); (1200, Flush 1%nat);
     (1300, Activity 0%nat 5%nat); (1400, Flush 0%nat);
     (3100, Tick 1%nat); (3200, StopWatching)] reachable_idle_state) as H.
  cbv zeta in H. destruct H as (H1 & H2 & _).
  - repeat constructor; discriminate.
  - by split.
Defined.
